(** * Retry, circuit breaker and cache-aside sketches of the interview guide

    The guide has four asynchronous JavaScript sketches that the
    specification builds its loader from:
    - [withRetry] and [CircuitBreaker] (backend-examples.js, repeated in the
      markdown copy of the guide),
    - [getUser] (backend-examples.js, "Caching with Redis"),
    - [cacheAsideExample] (postgres.js).

    An [async] function is embedded as a tree of commands ([prog]): every
    [await] of an outside service (Redis, the database, the wrapped
    function, a timer) is a node whose continuation receives the settled
    promise.  One interpreter runs a tree to completion against a [World];
    another one interleaves several trees at their [await] points.

    Conventions.  The outside services are oracles of the world: the
    [n]-th call of the wrapped function, the [n]-th database call and the
    [n]-th Redis command each have an outcome the world fixes, so a
    statement for every world is a statement for every behaviour of these
    services.  The clock moves only while a timer is awaited, and timers
    are Node's: a delay that is not within 1 .. 2^31 - 1 ms counts as
    1 ms.  Numbers are integers; [retries] is an integer count. *)

From Stdlib Require Import ZArith Lia.
From stdpp Require Import base option list strings pretty gmap.

Local Open Scope Z_scope.

(** ** JavaScript values and errors *)

(** The values the sketches handle.  Numbers are the integers (ids, counts
    and millisecond delays are all the sketches compute with). *)
#[local] Unset Elimination Schemes.
Inductive value : Type :=
| VUndefined
| VNull
| VBool (b : bool)
| VNum (n : Z)
| VStr (s : string)
| VObj (fields : list (string * value)).
#[local] Set Elimination Schemes.

(** [new Error(message)]. *)
Inductive error : Type :=
| Error (message : string).

(** A settled promise. *)
Inductive outcome (A : Type) : Type :=
| Fulfilled (a : A)
| Rejected (e : error).
Arguments Fulfilled {A} a.
Arguments Rejected {A} e.

(** ** The circuit breaker object *)

(** [this.state] only ever holds one of three string literals. *)
Inductive State : Type :=
| CLOSED       (* 'CLOSED' *)
| OPEN         (* 'OPEN' *)
| HALF_OPEN.   (* 'HALF-OPEN' *)

Definition State_eqb (a b : State) : bool :=
  match a, b with
  | CLOSED, CLOSED | OPEN, OPEN | HALF_OPEN, HALF_OPEN => true
  | _, _ => false
  end.

(** The four fields the constructor creates. *)
Record CircuitBreaker : Type := mkBreaker {
  failures : Z;
  threshold : Z;
  timeout : Z;
  state : State
}.

Definition with_failures (n : Z) (b : CircuitBreaker) : CircuitBreaker :=
  mkBreaker n (threshold b) (timeout b) (state b).

Definition with_state (s : State) (b : CircuitBreaker) : CircuitBreaker :=
  mkBreaker (failures b) (threshold b) (timeout b) s.

(** [constructor(threshold = 5, timeout = 60000)]: an omitted argument
    takes its default. *)
Definition new_CircuitBreaker (threshold timeout : option Z) : CircuitBreaker :=
  {| failures := 0;
     threshold := default 5 threshold;
     timeout := default 60000 timeout;
     state := CLOSED |}.

(** The only callback the sketches hand to [setTimeout] without awaiting
    it: [() => this.state = s]. *)
Inductive callback : Type :=
| SetState (s : State).

(** ** Commands and programs *)

(** What a sketch asks of its surroundings.  The index is the type of the
    value the command settles to. *)
Inductive cmd : Type -> Type :=
| RedisGet (key : string) : cmd (option string)
    (* redis.get(key): the text, or null *)
| RedisSet (key text : string) (ex : Z) : cmd unit
    (* redis.set(key, text, 'EX', ex) *)
| DbFindById (id : value) : cmd value
    (* db.users.findById(id) *)
| CallFn : cmd value
    (* fn(), the function handed to withRetry or to the breaker *)
| Sleep (ms : Z) : cmd unit
    (* new Promise(r => setTimeout(r, ms)); the wait is Node's, see timer_delay *)
| ThisGet : cmd CircuitBreaker
    (* read the fields of this *)
| ThisSet (b : CircuitBreaker) : cmd unit
    (* assign fields of this *)
| SetTimeout (cb : callback) (ms : Z) : cmd unit.
    (* setTimeout(cb, ms), not awaited *)

Inductive prog (A : Type) : Type :=
| Ret (a : A)                                     (* return a *)
| Throw (e : error)                               (* throw e *)
| Do {X : Type} (c : cmd X) (k : outcome X -> prog A).
Arguments Ret {A} a.
Arguments Throw {A} e.
Arguments Do {A X} c k.

Fixpoint bind {A B : Type} (p : prog A) (f : A -> prog B) : prog B :=
  match p with
  | Ret a => f a
  | Throw e => Throw e
  | Do c k => Do c (fun o => bind (k o) f)
  end.

#[global] Instance prog_ret : MRet prog := @Ret.
#[global] Instance prog_bind : MBind prog := fun A B f p => bind p f.

(** [try { p } catch (error) { h error }]. *)
Fixpoint try_catch {A : Type} (p : prog A) (h : error -> prog A) : prog A :=
  match p with
  | Ret a => Ret a
  | Throw e => h e
  | Do c k => Do c (fun o => try_catch (k o) h)
  end.

(** [await c]: a rejected promise is thrown at the await. *)
Definition await {X : Type} (c : cmd X) : prog X :=
  Do c (fun o => match o with
                 | Fulfilled x => Ret x
                 | Rejected e => Throw e
                 end).

(** ** The world the sketches run in *)

(** What happened, oldest first. *)
Inductive event : Type :=
| EvRedisGet (key : string)
| EvRedisSet (key text : string) (ex : Z)
| EvDb (id : value)
| EvFn
| EvSleep (ms : Z).

Definition is_redis (e : event) : bool :=
  match e with EvRedisGet _ | EvRedisSet _ _ _ => true | _ => false end.
Definition is_db (e : event) : bool :=
  match e with EvDb _ => true | _ => false end.
Definition is_fn (e : event) : bool :=
  match e with EvFn => true | _ => false end.

Definition count (f : event -> bool) (l : list event) : nat :=
  length (List.filter f l).

(** A Redis string key: its text and, when it has one, the absolute time
    (ms) at which it expires. *)
Record entry : Type := mkEntry {
  text : string;
  expiresAt : option Z
}.

Definition live (now : Z) (e : entry) : bool :=
  match expiresAt e with
  | Some t => now <? t
  | None => true
  end.

Record World : Type := mkWorld {
  now : Z;                                   (* the clock, ms *)
  redis : gmap string entry;                 (* the Redis keyspace *)
  redis_fault : nat -> option error;         (* n-th Redis command: does the store fail it *)
  db_users : nat -> value -> outcome value;  (* n-th findById call *)
  fn_outcome : nat -> outcome value;         (* n-th call of fn *)
  breaker : CircuitBreaker;                  (* the breaker instance *)
  timers : list (Z * callback);              (* pending setTimeout callbacks, with due time *)
  log : list event
}.

Definition redis_cmds (w : World) : nat := count is_redis (log w).
Definition db_calls (w : World) : nat := count is_db (log w).
Definition fn_calls (w : World) : nat := count is_fn (log w).

Definition emit (e : event) (w : World) : World :=
  mkWorld (now w) (redis w) (redis_fault w) (db_users w) (fn_outcome w)
          (breaker w) (timers w) (log w ++ [e]).

Definition set_redis (r : gmap string entry) (w : World) : World :=
  mkWorld (now w) r (redis_fault w) (db_users w) (fn_outcome w)
          (breaker w) (timers w) (log w).

Definition set_breaker (b : CircuitBreaker) (w : World) : World :=
  mkWorld (now w) (redis w) (redis_fault w) (db_users w) (fn_outcome w)
          b (timers w) (log w).

Definition set_timers (t : list (Z * callback)) (w : World) : World :=
  mkWorld (now w) (redis w) (redis_fault w) (db_users w) (fn_outcome w)
          (breaker w) t (log w).

Definition set_now (t : Z) (w : World) : World :=
  mkWorld t (redis w) (redis_fault w) (db_users w) (fn_outcome w)
          (breaker w) (timers w) (log w).

Definition fire (cb : callback) (b : CircuitBreaker) : CircuitBreaker :=
  match cb with SetState s => with_state s b end.

Definition due (t : Z) (tm : Z * callback) : bool := fst tm <=? t.

(** The clock moves on by [dt]; the callbacks that have come due run. *)
Definition advance (dt : Z) (w : World) : World :=
  let t := now w + dt in
  let ready := List.filter (due t) (timers w) in
  let rest := List.filter (fun tm => negb (due t tm)) (timers w) in
  set_now t
    (set_timers rest
       (set_breaker (fold_left (fun b tm => fire (snd tm) b) ready (breaker w)) w)).

(** GET: an expired key reads as null. *)
Definition redis_lookup (w : World) (key : string) : option string :=
  match redis w !! key with
  | Some e => if live (now w) e then Some (text e) else None
  | None => None
  end.

(** The delay Node's [setTimeout] goes by: a delay that is not within
    1 .. 2^31 - 1 ms is set to 1 ms. *)
Definition TIMEOUT_MAX : Z := 2147483647.

Definition timer_delay (ms : Z) : Z :=
  if (1 <=? ms) && (ms <=? TIMEOUT_MAX) then ms else 1.

(** How the surroundings answer one command. *)
Definition handle {X : Type} (c : cmd X) (w : World) : outcome X * World :=
  match c in cmd X return outcome X * World with
  | RedisGet key =>
      match redis_fault w (redis_cmds w) with
      | Some e => (Rejected e, emit (EvRedisGet key) w)
      | None => (Fulfilled (redis_lookup w key), emit (EvRedisGet key) w)
      end
  | RedisSet key txt ex =>
      match redis_fault w (redis_cmds w) with
      | Some e => (Rejected e, emit (EvRedisSet key txt ex) w)
      | None =>
          if 0 <? ex then
            (Fulfilled tt,
             emit (EvRedisSet key txt ex)
               (set_redis (<[key := mkEntry txt (Some (now w + 1000 * ex))]> (redis w)) w))
          else
            (Rejected (Error "ERR invalid expire time in 'set' command"),
             emit (EvRedisSet key txt ex) w)
      end
  | DbFindById id => (db_users w (db_calls w) id, emit (EvDb id) w)
  | CallFn => (fn_outcome w (fn_calls w), emit EvFn w)
  | Sleep ms => (Fulfilled tt, advance (timer_delay ms) (emit (EvSleep ms) w))
  | ThisGet => (Fulfilled (breaker w), w)
  | ThisSet b => (Fulfilled tt, set_breaker b w)
  | SetTimeout cb ms =>
      (Fulfilled tt, set_timers (timers w ++ [(now w + timer_delay ms, cb)]) w)
  end.

(** One async call run to completion, nothing else interleaved. *)
Fixpoint run {A : Type} (p : prog A) (w : World) : outcome A * World :=
  match p with
  | Ret a => (Fulfilled a, w)
  | Throw e => (Rejected e, w)
  | Do c k => let '(o, w') := handle c w in run (k o) w'
  end.

(** ** The sketches *)

(** *** Retry strategy (backend-examples.js) *)

(** The [for (let i = 0; i < retries; i++)] loop, entered with counter [i]
    and [todo] iterations left to go; the body changes neither [i] nor
    [retries], so [todo] is [retries - i] (see [withRetry]). *)
Fixpoint retry_loop (fn : prog value) (retries delay : Z)
    (todo : nat) (i : Z) : prog value :=
  match todo with
  | O => Ret VUndefined                      (* falls off the end of the function *)
  | S todo' =>
      try_catch fn                           (* return await fn() *)
        (fun error =>
           if i =? retries - 1 then Throw error
           else
             _ ← await (Sleep (delay * (i + 1)));
             retry_loop fn retries delay todo' (i + 1))
  end.

Definition withRetry (fn : prog value) (retries delay : Z) : prog value :=
  retry_loop fn retries delay (Z.to_nat (retries - 0)) 0.

(** [withRetry(fn)] with both defaults, as in the usage line. *)
Definition withRetry_defaults (fn : prog value) : prog value :=
  withRetry fn 3 1000.

(** *** Circuit breaker (backend-examples.js) *)

(** Field reads and writes of [this] and the un-awaited [setTimeout]
    complete on the spot. *)
Definition this_get : prog CircuitBreaker := await ThisGet.
Definition this_set (b : CircuitBreaker) : prog unit := await (ThisSet b).
Definition setTimeout (cb : callback) (ms : Z) : prog unit :=
  await (SetTimeout cb ms).

Definition call (fn : prog value) : prog value :=
  this ← this_get;
  if State_eqb (state this) OPEN then Throw (Error "Circuit is OPEN")
  else
    try_catch
      (result ← fn;                                      (* await fn() *)
       this ← this_get;
       _ ← this_set (with_failures 0 this);              (* this.failures = 0 *)
       Ret result)
      (fun error =>
         this ← this_get;
         _ ← this_set (with_failures (failures this + 1) this);  (* this.failures++ *)
         this ← this_get;
         _ ← (if failures this >=? threshold this then
                _ ← this_set (with_state OPEN this);
                setTimeout (SetState HALF_OPEN) (timeout this)
              else Ret tt);
         Throw error).

(** *** Cache-aside (backend-examples.js and postgres.js) *)

(** [JSON.parse] and [JSON.stringify] are the runtime's; [JSON_parse]
    throws on text that is not JSON, and [JSON_stringify v] is the text
    [redis.set] is handed for [v]. *)
Class JSON : Type := {
  JSON_parse : string -> outcome value;
  JSON_stringify : value -> string
}.

(** String conversion of a template literal [`${v}`]. *)
Definition ToString (v : value) : string :=
  match v with
  | VUndefined => "undefined"
  | VNull => "null"
  | VBool true => "true"
  | VBool false => "false"
  | VNum n => pretty n
  | VStr s => s
  | VObj _ => "[object Object]"
  end.

(** [if (cached)] on what [redis.get] resolved to: null and the empty
    string are falsy. *)
Definition truthy (cached : option string) : bool :=
  match cached with
  | Some s => negb (String.eqb s EmptyString)
  | None => false
  end.

Definition settle {A : Type} (o : outcome A) : prog A :=
  match o with
  | Fulfilled a => Ret a
  | Rejected e => Throw e
  end.

Section CacheAside.
Context `{JSON}.

(** backend-examples.js, "Caching with Redis". *)
Definition getUser (id : value) : prog value :=
  cached ← await (RedisGet ("user:" +:+ ToString id));
  if truthy cached then settle (JSON_parse (default EmptyString cached))
  else
    user ← await (DbFindById id);
    _ ← await (RedisSet ("user:" +:+ ToString id) (JSON_stringify user) 3600);
    Ret user.

(** postgres.js; the database read is simulated by an object literal. *)
Definition cacheAsideExample (userId : value) : prog value :=
  let cacheKey := "user:" +:+ ToString userId in
  cachedData ← await (RedisGet cacheKey);
  if truthy cachedData then settle (JSON_parse (default EmptyString cachedData))
  else
    let user := VObj [("id", userId); ("name", VStr "From DB")] in
    _ ← await (RedisSet cacheKey (JSON_stringify user) 600);
    Ret user.
End CacheAside.

(** *** Several calls in flight *)

(** The task at position [i] takes its next step: the command it awaits
    settles and the task runs on to its next [await]. *)
Definition step_task {A : Type} (i : nat) (pool : list (prog A)) (w : World)
    : list (prog A) * World :=
  match pool !! i with
  | Some (Do c k) => let '(o, w') := handle c w in (<[i := k o]> pool, w')
  | _ => (pool, w)
  end.

Fixpoint run_sched {A : Type} (sched : list nat) (pool : list (prog A)) (w : World)
    : list (prog A) * World :=
  match sched with
  | [] => (pool, w)
  | i :: sched' => let '(pool', w') := step_task i pool w in run_sched sched' pool' w'
  end.

(** [n] calls started together: every call takes its first step, then
    every call its second, and so on for [rounds] rounds. *)
Fixpoint round_robin (n rounds : nat) : list nat :=
  match rounds with
  | O => []
  | S r => seq 0 n ++ round_robin n r
  end.

(** ** A world and a JSON instance to run examples in *)

Definition quote_char : string := String (Ascii.ascii_of_nat 34) EmptyString.
Definition backslash : string := String (Ascii.ascii_of_nat 92) EmptyString.

(** Escape the two characters a JSON string literal cannot hold as they
    are (control characters are not among the texts of the examples). *)
Fixpoint json_escape (s : string) : string :=
  match s with
  | EmptyString => EmptyString
  | String c s' =>
      if Ascii.eqb c (Ascii.ascii_of_nat 34) then backslash +:+ quote_char +:+ json_escape s'
      else if Ascii.eqb c (Ascii.ascii_of_nat 92) then backslash +:+ backslash +:+ json_escape s'
      else String c (json_escape s')
  end.

Definition json_quote (s : string) : string :=
  quote_char +:+ json_escape s +:+ quote_char.

Definition join_comma (l : list string) : string :=
  match l with
  | [] => EmptyString
  | x :: l' => fold_left (fun acc y => acc +:+ "," +:+ y) l' x
  end.

(** The text of a value; [None] where [JSON.stringify] gives undefined.
    A property whose value has no text is left out of its object. *)
Fixpoint json_text (v : value) : option string :=
  match v with
  | VUndefined => None
  | VNull => Some "null"
  | VBool true => Some "true"
  | VBool false => Some "false"
  | VNum n => Some (pretty n)
  | VStr s => Some (json_quote s)
  | VObj fields =>
      let member (kv : string * value) :=
        match json_text (snd kv) with
        | Some t => Some (json_quote (fst kv) +:+ ":" +:+ t)
        | None => None
        end in
      Some ("{" +:+ join_comma (omap member fields) +:+ "}")
  end.

(** The instance of the examples: it writes the values above and reads
    back the three literals only.  Every other text is refused, so the
    examples read back no text but those three and the empty one (which
    [JSON.parse] refuses too). *)
Definition demo_parse (s : string) : outcome value :=
  if String.eqb s "null" then Fulfilled VNull
  else if String.eqb s "true" then Fulfilled (VBool true)
  else if String.eqb s "false" then Fulfilled (VBool false)
  else Rejected (Error "Unexpected token in JSON").

#[global] Instance demo_JSON : JSON := {|
  JSON_parse := demo_parse;
  JSON_stringify := fun v => default EmptyString (json_text v)
|}.

(** Clock at [t], empty keyspace, a store that never fails, a database
    and a wrapped function that behave as given, a fresh breaker. *)
Definition world0 (t : Z) (db : nat -> value -> outcome value)
    (fn : nat -> outcome value) : World :=
  {| now := t;
     redis := ∅;
     redis_fault := fun _ => None;
     db_users := db;
     fn_outcome := fn;
     breaker := new_CircuitBreaker None None;
     timers := [];
     log := [] |}.

Definition db_null : nat -> value -> outcome value := fun _ _ => Fulfilled VNull.
Definition fn_fails : nat -> outcome value := fun _ => Rejected (Error "boom").

Definition db_user : nat -> value -> outcome value :=
  fun _ id => Fulfilled (VObj [("id", id)]).
Definition db_down : nat -> value -> outcome value :=
  fun _ _ => Rejected (Error "connection terminated").

(** A world whose keyspace holds one key that never expires. *)
Definition world_with (key txt : string) (db : nat -> value -> outcome value) : World :=
  set_redis {[ key := mkEntry txt None ]} (world0 0 db fn_fails).

(** A world whose store fails its [n]-th command (from 0) and no other. *)
Definition world_faulty (n : nat) (db : nat -> value -> outcome value) : World :=
  {| now := 0;
     redis := ∅;
     redis_fault := fun k => if (k =? n)%nat then Some (Error "ECONNREFUSED") else None;
     db_users := db;
     fn_outcome := fn_fails;
     breaker := new_CircuitBreaker None None;
     timers := [];
     log := [] |}.

(** The wrapped function as an outside service: [() => fetchFromAPI(..)]. *)
Definition fn_call : prog value := await CallFn.

(** A caller that handles the error, as in the guide:
    [try { await breaker.call(fn) } catch (error) { }]. *)
Definition attempt (fn : prog value) : prog unit :=
  try_catch (_ ← call fn; Ret tt) (fun _ => Ret tt).

Fixpoint attempts (k : nat) (fn : prog value) : prog unit :=
  match k with
  | O => Ret tt
  | S k' => _ ← attempt fn; attempts k' fn
  end.

(** A default breaker driven open at time [t] by five failed calls, and
    the same breaker once its timer has run; the function recovers from
    its sixth call on. *)
Definition fn_recovers : nat -> outcome value :=
  fun n => if (n <? 5)%nat then Rejected (Error "boom") else Fulfilled (VNum 7).

Definition tripped (t : Z) (fn : nat -> outcome value) : World :=
  snd (run (attempts 5 fn_call) (world0 t db_null fn)).

Definition half_open (fn : nat -> outcome value) : World :=
  advance 60000 (tripped 0 fn).

(** ** Reading the log of one call *)

(** The events logged between two worlds of one run. *)
Definition since (w w' : World) : list event := drop (length (log w)) (log w').

(** The timer waits among some events, in order. *)
Definition delays (l : list event) : list Z :=
  omap (fun e => match e with EvSleep ms => Some ms | _ => None end) l.

(** The timer wait that comes right before the [k]-th call of the wrapped
    function in [l] (calls counted from 0), if there is one; [last] is the
    wait seen since the previous call. *)
Fixpoint delay_before_from (last : option Z) (l : list event) (k : nat) : option Z :=
  match l with
  | [] => None
  | EvFn :: l' =>
      match k with
      | O => last
      | S k' => delay_before_from None l' k'
      end
  | EvSleep ms :: l' => delay_before_from (Some ms) l' k
  | _ :: l' => delay_before_from last l' k
  end.

Definition delay_before (l : list event) (k : nat) : option Z :=
  delay_before_from None l k.

(** What [m] attempts of a retry loop entered at counter [i] log: a call,
    then a wait and a call for each further attempt. *)
Fixpoint attempt_log (delay i : Z) (m : nat) : list event :=
  match m with
  | O => []
  | S m' =>
      match m' with
      | O => [EvFn]
      | S _ => EvFn :: EvSleep (delay * (i + 1)) :: attempt_log delay (i + 1) m'
      end
  end.

(** What one [withRetry(fn, 3, delay)] logs when every call of [fn]
    fails. *)
Definition retry_demo (delay : Z) : list event :=
  since (world0 0 db_null fn_fails)
        (snd (run (withRetry fn_call 3 delay) (world0 0 db_null fn_fails))).

(** ** Words for the statements *)

(** What [call] leaves behind once the state check has let the call
    through and the wrapped function has failed, or succeeded. *)
Definition after_failure (w : World) : World :=
  let b := with_failures (failures (breaker w) + 1) (breaker w) in
  if failures b >=? threshold b then
    set_timers (timers w ++ [(now w + timer_delay (timeout b), SetState HALF_OPEN)])
      (set_breaker (with_state OPEN b) w)
  else set_breaker b w.

Definition after_success (w : World) : World :=
  set_breaker (with_failures 0 (breaker w)) w.

Definition rejected (o : outcome value) : Prop := exists e, o = Rejected e.

(** Every call of the wrapped function fails. *)
Definition always_fails (w : World) : Prop :=
  forall n, rejected (fn_outcome w n).

(** The store fails no command. *)
Definition store_sound (w : World) : Prop := forall k, redis_fault w k = None.

(** The database answers [user] to every [findById(id)]. *)
Definition db_steady (id user : value) (w : World) : Prop :=
  forall k, db_users w k id = Fulfilled user.

(** The write-back of a miss, [redis.set(key, text, 'EX', ex)] and
    [return user], in one step. *)
Definition write_back `{JSON} (key : string) (user : value) (ex : Z) (w : World)
    : outcome value * World :=
  match redis_fault w (redis_cmds w) with
  | Some e => (Rejected e, emit (EvRedisSet key (JSON_stringify user) ex) w)
  | None =>
      (Fulfilled user,
       emit (EvRedisSet key (JSON_stringify user) ex)
         (set_redis
            (<[key := mkEntry (JSON_stringify user) (Some (now w + 1000 * ex))]> (redis w))
            w))
  end.

(** The world after a write-back of [v] that the store has taken. *)
Definition written `{JSON} (key : string) (v : value) (ex : Z) (w : World) : World :=
  emit (EvRedisSet key (JSON_stringify v) ex)
    (set_redis
       (<[key := mkEntry (JSON_stringify v) (Some (now w + 1000 * ex))]> (redis w)) w).

(** ** More words for the statements *)

(** A caller that keeps what a call settled to:
    [try { return await p } catch (error) { return error }]. *)
Definition settled (p : prog value) : prog (outcome value) :=
  try_catch (v ← p; Ret (Fulfilled v)) (fun e => Ret (Rejected e)).

(** One call through the breaker for each function of a list, in turn,
    each call awaited before the next is made. *)
Fixpoint call_each (fns : list (prog value)) : prog (list (outcome value)) :=
  match fns with
  | [] => Ret []
  | fn :: fns' => o ← settled (call fn); os ← call_each fns'; Ret (o :: os)
  end.

(** The time spent in timer waits among some events. *)
Definition waits (l : list event) : Z :=
  foldr (fun e acc => match e with EvSleep ms => timer_delay ms + acc | _ => acc end) 0 l.

(** ** Smaller functions of the guide *)

(** *** Redis reconnect delay (postgres.js, connectToRedis)

    [retryStrategy: (times) => Math.min(times * 50, 2000)] *)
Definition retryStrategy (times : Z) : Z := Z.min (times * 50) 2000.

(** *** Page arithmetic of the user listing (backend-examples.js, GET /api/users)

    [.skip((page - 1) * limit)] and [pages: Math.ceil(total / limit)].
    A zero [limit] makes the quotient infinite or NaN: no integer. *)
Definition page_skip (page limit : Z) : Z := (page - 1) * limit.

Definition page_count (total limit : Z) : option Z :=
  if limit =? 0 then None else Some (- ((- total) / limit)).

(** *** Strings *)

(** [s.split(sep)] for a one-character separator: the pieces between the
    separators, empty pieces included; never an empty list. *)
Fixpoint split_on (sep : Ascii.ascii) (s : string) : list string :=
  match s with
  | EmptyString => [EmptyString]
  | String c s' =>
      if Ascii.eqb c sep then EmptyString :: split_on sep s'
      else
        match split_on sep s' with
        | part :: parts => String c part :: parts
        | [] => [String c EmptyString]
        end
  end.

Definition space : Ascii.ascii := Ascii.ascii_of_nat 32.

(** [parts[i]]: the piece, or undefined past the end. *)
Definition at_index (parts : list string) (i : nat) : value :=
  match parts !! i with
  | Some s => VStr s
  | None => VUndefined
  end.

Fixpoint has_char (c : Ascii.ascii) (s : string) : bool :=
  match s with
  | EmptyString => false
  | String c' s' => Ascii.eqb c' c || has_char c s'
  end.

(** *** The fullName virtual of the user schema (backend-examples.js) *)

(** The two fields the virtual reads and writes. *)
Record UserDoc : Type := mkUserDoc {
  firstName : value;
  lastName : value
}.

(** [get(function () { return `${this.firstName} ${this.lastName}`; })] *)
Definition fullName_get (this : UserDoc) : string :=
  ToString (firstName this) +:+ " " +:+ ToString (lastName this).

(** [set(function (name) { const parts = name.split(' ');
     this.firstName = parts[0]; this.lastName = parts[1]; })] *)
Definition fullName_set (name : string) (this : UserDoc) : UserDoc :=
  let parts := split_on space name in
  {| firstName := at_index parts 0; lastName := at_index parts 1 |}.

(** *** The token of the JWT middleware (backend-examples.js, authMiddleware) *)

(** [req.headers.authorization?.split(' ')[1]]: undefined when the header
    is missing or has no second piece. *)
Definition bearer_token (authorization : option string) : option string :=
  match authorization with
  | Some h => split_on space h !! 1%nat
  | None => None
  end.

(** *** Stripping query operators (backend-examples.js, safeQuery) *)

(** [for (const key in obj) if (key.startsWith('$')) delete obj[key];
     return obj;] on an object given by its own properties in order. *)
Definition sanitize (obj : list (string * value)) : list (string * value) :=
  List.filter (fun kv => negb (String.prefix "$" (fst kv))) obj.

(** *** Lower case, trimming and the product slug

    Text is ASCII here: [toLowerCase] moves the letters A..Z and leaves
    every other character alone, and the white space [trim] removes is
    tab, line feed, vertical tab, form feed, carriage return and space. *)

Definition code (c : Ascii.ascii) : nat := Ascii.nat_of_ascii c.

Definition is_upper (c : Ascii.ascii) : bool :=
  (65 <=? code c)%nat && (code c <=? 90)%nat.

Definition lower_char (c : Ascii.ascii) : Ascii.ascii :=
  if is_upper c then Ascii.ascii_of_nat (code c + 32) else c.

Fixpoint toLowerCase (s : string) : string :=
  match s with
  | EmptyString => EmptyString
  | String c s' => String (lower_char c) (toLowerCase s')
  end.

Definition is_white (c : Ascii.ascii) : bool :=
  ((9 <=? code c)%nat && (code c <=? 13)%nat) || (code c =? 32)%nat.








(** [a-z0-9] *)
Definition is_slug_char (c : Ascii.ascii) : bool :=
  ((97 <=? code c)%nat && (code c <=? 122)%nat) ||
  ((48 <=? code c)%nat && (code c <=? 57)%nat).

Definition dash : Ascii.ascii := Ascii.ascii_of_nat 45.

(** [.replace(/[^a-z0-9]+/g, '-')]: every longest run of other
    characters becomes one dash; [in_run] says that the run the scan is
    in has already been given its dash. *)
Fixpoint dash_runs (in_run : bool) (s : string) : string :=
  match s with
  | EmptyString => EmptyString
  | String c s' =>
      if is_slug_char c then String c (dash_runs false s')
      else if in_run then dash_runs true s'
      else String dash (dash_runs true s')
  end.

(** [.replace(/(^-|-$)/g, '')]: a dash at the very start goes, and a dash
    at the very end of what follows goes. *)
Definition drop_leading_dash (s : string) : string :=
  match s with
  | String c s' => if Ascii.eqb c dash then s' else s
  | EmptyString => EmptyString
  end.

Fixpoint drop_trailing_dash (s : string) : string :=
  match s with
  | EmptyString => EmptyString
  | String c s' =>
      match s' with
      | EmptyString => if Ascii.eqb c dash then EmptyString else s
      | String _ _ => String c (drop_trailing_dash s')
      end
  end.

Definition trim_dashes (s : string) : string :=
  drop_trailing_dash (drop_leading_dash s).

(** productSchema.pre('save'): [this.name.toLowerCase()
    .replace(/[^a-z0-9]+/g, '-').replace(/(^-|-$)/g, '')] *)
Definition slugify (name : string) : string :=
  trim_dashes (dash_runs false (toLowerCase name)).

(** The hook: the slug is computed anew only when the name was modified. *)
Definition pre_save_slug (name_modified : bool) (name slug : string) : string :=
  if name_modified then slugify name else slug.

(** Shapes of strings. *)
Fixpoint all_chars (p : Ascii.ascii -> bool) (s : string) : bool :=
  match s with
  | EmptyString => true
  | String c s' => p c && all_chars p s'
  end.

Definition starts_with (c : Ascii.ascii) (s : string) : bool :=
  match s with
  | String c' _ => Ascii.eqb c' c
  | EmptyString => false
  end.

Fixpoint ends_with (c : Ascii.ascii) (s : string) : bool :=
  match s with
  | EmptyString => false
  | String c' s' =>
      match s' with
      | EmptyString => Ascii.eqb c' c
      | String _ _ => ends_with c s'
      end
  end.

(** No two dashes side by side. *)
Fixpoint no_double_dash (s : string) : bool :=
  match s with
  | EmptyString => true
  | String c s' => negb (Ascii.eqb c dash && starts_with dash s') && no_double_dash s'
  end.

Definition slug_or_dash (c : Ascii.ascii) : bool := is_slug_char c || Ascii.eqb c dash.

(** The characters of [s] that satisfy [p], in order. *)
Fixpoint keep (p : Ascii.ascii -> bool) (s : string) : string :=
  match s with
  | EmptyString => EmptyString
  | String c s' => if p c then String c (keep p s') else keep p s'
  end.




(** ** Scripts: sketches that only call out

    The remaining sketches are sequences of calls to a database client,
    the console and the Express response, under [try]/[catch]/[finally].
    Each call out is a node of the script; the [n]-th call made in a run
    gets the [n]-th reply of the outside, whatever is called. *)

(** An argument of a call: a value, an array of values, or an error
    object. *)
Inductive arg : Type :=
| Val (v : value)
| Arr (vs : list value)
| Err (e : error).

Inductive script (A : Type) : Type :=
| Done (a : A)                                   (* return a *)
| Raise (e : error)                              (* throw e *)
| Ask (callee : string) (args : list arg) (k : outcome value -> script A).
Arguments Done {A} a.
Arguments Raise {A} e.
Arguments Ask {A} callee args k.

Fixpoint sbind {A B : Type} (p : script A) (f : A -> script B) : script B :=
  match p with
  | Done a => f a
  | Raise e => Raise e
  | Ask callee args k => Ask callee args (fun o => sbind (k o) f)
  end.

#[global] Instance script_ret : MRet script := @Done.
#[global] Instance script_bind : MBind script := fun A B f p => sbind p f.

(** [try { p } catch (error) { h error }] *)
Fixpoint stry_catch {A : Type} (p : script A) (h : error -> script A) : script A :=
  match p with
  | Done a => Done a
  | Raise e => h e
  | Ask callee args k => Ask callee args (fun o => stry_catch (k o) h)
  end.

(** [try { p } finally { f }]: [f] runs on every way out of [p]; if [f]
    throws, its error replaces the outcome of [p]. *)
Fixpoint sfinally {A : Type} (p : script A) (f : script unit) : script A :=
  match p with
  | Done a => sbind f (fun _ => Done a)
  | Raise e => sbind f (fun _ => Raise e)
  | Ask callee args k => Ask callee args (fun o => sfinally (k o) f)
  end.

(** A call whose result is used: awaited, or made on the spot; a failure
    is thrown at the call. *)
Definition ask (callee : string) (args : list arg) : script value :=
  Ask callee args (fun o => match o with
                            | Fulfilled v => Done v
                            | Rejected e => Raise e
                            end).

(** A call whose result is dropped: the console, or a promise that is
    not awaited. *)
Definition tell (callee : string) (args : list arg) : script unit :=
  Ask callee args (fun _ => Done tt).

Record Outside : Type := mkOutside {
  reply : nat -> outcome value;             (* the n-th call's reply *)
  asked : list (string * list arg)          (* the calls made, oldest first *)
}.

Definition fresh (reply : nat -> outcome value) : Outside :=
  {| reply := reply; asked := [] |}.

Fixpoint run_script {A : Type} (p : script A) (out : Outside) : outcome A * Outside :=
  match p with
  | Done a => (Fulfilled a, out)
  | Raise e => (Rejected e, out)
  | Ask callee args k =>
      run_script (k (reply out (length (asked out))))
        (mkOutside (reply out) (asked out ++ [(callee, args)]))
  end.

(** The names of the calls made, in order. *)
Definition callees (out : Outside) : list string := map fst (asked out).

(** [if (v)] *)
Definition truthy_value (v : value) : bool :=
  match v with
  | VUndefined | VNull => false
  | VBool b => b
  | VNum n => negb (n =? 0)
  | VStr s => negb (String.eqb s EmptyString)
  | VObj _ => true
  end.

(** [v.name]: reading a property of null or undefined throws. *)
Definition get_property (v : value) (name : string) : outcome value :=
  match v with
  | VUndefined | VNull =>
      Rejected (Error ("Cannot read properties of " +:+ ToString v +:+
                       " (reading '" +:+ name +:+ "')"))
  | VObj fields =>
      Fulfilled (match List.find (fun kv => String.eqb (fst kv) name) fields with
                 | Some kv => snd kv
                 | None => VUndefined
                 end)
  | _ => Fulfilled VUndefined
  end.

(** *** The JWT middleware (backend-examples.js, authMiddleware) *)

(** [target = v]: a write to an object of the surroundings.  It is kept
    among the calls made, and takes a reply as every call does, but it
    cannot fail: the reply is not looked at. *)
Definition assign (target : string) (v : value) : script unit :=
  Ask target [Val v] (fun _ => Done tt).

(** [jwt.verify] is the library's: it returns the payload or throws.
    [next()] stands inside the [try], so what it throws is caught as
    well.  [SECRET] is free in the sketch. *)
Definition authMiddleware (SECRET : value) (authorization : option string) : script unit :=
  let token := from_option VStr VUndefined (bearer_token authorization) in
  stry_catch
    (user ← ask "jwt.verify" [Val token; Val SECRET];
     _ ← assign "req.user" user;             (* req.user = jwt.verify(token, SECRET) *)
     _ ← ask "next" [];                       (* next() *)
     Done tt)
    (fun _ =>                                 (* res.status(401).json(..) *)
       _ ← ask "res.status" [Val (VNum 401)];
       _ ← ask "res.json" [Val (VObj [("error", VStr "Unauthorized")])];
       Done tt).

(** *** A transfer in PostgreSQL (postgres.js, advancedFeatures) *)

Definition withdraw : string :=
  "UPDATE accounts SET balance = balance - 100 WHERE id = 1".
Definition deposit : string :=
  "UPDATE accounts SET balance = balance + 100 WHERE id = 2".

Definition advancedFeatures : script unit :=
  client ← ask "pool.connect" [];
  sfinally
    (stry_catch
       (_ ← ask "client.query" [Val (VStr "BEGIN")];
        _ ← ask "client.query" [Val (VStr withdraw)];
        _ ← ask "client.query" [Val (VStr deposit)];
        _ ← ask "client.query" [Val (VStr "COMMIT")];
        Done tt)
       (fun e =>
          _ ← ask "client.query" [Val (VStr "ROLLBACK")];
          tell "console.error" [Val (VStr "Transaction Failed")]))
    (_ ← ask "client.release" []; Done tt).

(** *** Error propagation (backend-examples.js, the first getUser and its caller) *)

(** [const user = await db.findUser(id);
     if (!user) throw new Error('User not found'); return user;] *)
Definition getUser_or_throw (id : value) : script value :=
  user ← ask "db.findUser" [Val id];
  if negb (truthy_value user) then Raise (Error "User not found")
  else Done user.

(** [try { const user = await getUser(123); }
     catch (error) { console.error('Failed:', error.message); }] *)
Definition getUser_caller : script unit :=
  stry_catch
    (_ ← getUser_or_throw (VNum 123); Done tt)
    (fun error =>
       match error with
       | Error message => tell "console.error" [Val (VStr "Failed:"); Val (VStr message)]
       end).

(** *** Deleting a user (backend-examples.js, DELETE /api/users/:id) *)

Definition delete_user (id : value) : script unit :=
  stry_catch
    (user ← ask "User.findByIdAndDelete" [Val id];
     if negb (truthy_value user) then
       _ ← ask "res.status" [Val (VNum 404)];
       _ ← ask "res.json"
             [Val (VObj [("success", VBool false); ("error", VStr "User not found")])];
       Done tt
     else
       _ ← ask "res.json"
             [Val (VObj [("success", VBool true);
                         ("message", VStr "User deleted successfully")])];
       Done tt)
    (fun error => _ ← ask "next" [Err error]; Done tt).

(** *** A transfer in MongoDB (backend-examples.js, transactionExample)

    [senderId], [receiverId] and [amount] are free in the sketch.  How
    the runtime compares a string with 0 is left to [str_lt_zero]. *)
Section Transaction.
Variables (senderId receiverId : value) (amount : Z).
Variable str_lt_zero : string -> bool.

(** [v < 0] *)
Definition less_than_zero (v : value) : bool :=
  match v with
  | VNum n => n <? 0
  | VStr s => str_lt_zero s
  | _ => false
  end.

Definition transactionExample : script unit :=
  session ← ask "mongoose.startSession" [];
  sfinally
    (stry_catch
       (_ ← ask "session.startTransaction" [];
        sender ← ask "User.findByIdAndUpdate"
                   [Val senderId;
                    Val (VObj [("$inc", VObj [("balance", VNum (- amount))])]);
                    Val (VObj [("session", session); ("new", VBool true)])];
        balance ← (match get_property sender "balance" with
                   | Fulfilled b => Done b
                   | Rejected e => Raise e
                   end);
        _ ← (if less_than_zero balance then Raise (Error "Insufficient balance")
             else Done tt);
        _ ← ask "User.findByIdAndUpdate"
              [Val receiverId;
               Val (VObj [("$inc", VObj [("balance", VNum amount)])]);
               Val (VObj [("session", session)])];
        _ ← ask "Transaction.create"
              [Arr [VObj [("from", senderId); ("to", receiverId);
                          ("amount", VNum amount); ("type", VStr "transfer")]];
               Val (VObj [("session", session)])];
        _ ← ask "session.commitTransaction" [];
        tell "console.log" [Val (VStr "Transaction successful")])
       (fun error =>
          _ ← ask "session.abortTransaction" [];
          _ ← (match error with
               | Error message =>
                   tell "console.error" [Val (VStr "Transaction failed:"); Val (VStr message)]
               end);
          Raise error))
    (tell "session.endSession" []).
End Transaction.

(** *** Reading the calls of a run *)

Definition ok {A : Type} (o : outcome A) : bool :=
  match o with
  | Fulfilled _ => true
  | Rejected _ => false
  end.

(** How often [callee] was called. *)
Definition times (callee : string) (out : Outside) : nat :=
  length (List.filter (String.eqb callee) (callees out)).

(** The text a call has for its first argument, if it has one. *)
Definition first_text (call : string * list arg) : option string :=
  match snd call with
  | Val (VStr q) :: _ => Some q
  | _ => None
  end.

(** Was the SQL text [q] sent with [client.query]? *)
Definition sent (q : string) (out : Outside) : bool :=
  existsb (fun call => String.eqb (fst call) "client.query" &&
                       match first_text call with
                       | Some q' => String.eqb q' q
                       | None => false
                       end) (asked out).

(** Did every call picked by [sel] get a good reply? *)
Definition all_ok_for (sel : string * list arg -> bool) (out : Outside) : bool :=
  forallb (fun ic => implb (sel (snd ic)) (ok (reply out (fst ic))))
          (combine (seq 0 (length (asked out))) (asked out)).

(** The calls that clean up after the PostgreSQL transfer. *)
Definition is_cleanup (call : string * list arg) : bool :=
  String.eqb (fst call) "client.release" ||
  (String.eqb (fst call) "client.query" &&
   match first_text call with
   | Some q => String.eqb q "ROLLBACK"
   | None => false
   end).

(** *** CRUD in PostgreSQL (postgres.js, crudOperations) *)

Definition insertQuery : string :=
  "
            INSERT INTO users (username, email, password_hash)
            VALUES ($1, $2, $3)
            RETURNING *; -- Returns the created row immediately
        ".

Definition updateQuery : string :=
  "
            UPDATE users 
            SET is_active = $1, role = $2 
            WHERE id = $3 
            RETURNING id, username, role; -- Very useful to get updated state
        ".

Definition deleteQuery : string := "DELETE FROM users WHERE id = $1".

Definition crudOperations : script unit :=
  client ← ask "pool.connect" [];
  sfinally
    (newUser ← ask "client.query"
                 [Val (VStr insertQuery);
                  Arr [VStr "john_doe"; VStr "john@example.com"; VStr "hashed_pw"]];
     allUsers ← ask "client.query" [Val (VStr "SELECT * FROM users")];
     activeUsers ← ask "client.query"
                     [Val (VStr "SELECT username, email FROM users WHERE is_active = $1");
                      Arr [VBool true]];
     userById ← ask "client.query"
                  [Val (VStr "SELECT * FROM users WHERE id = $1"); Arr [VNum 1]];
     updated ← ask "client.query"
                 [Val (VStr updateQuery); Arr [VBool false; VStr "admin"; VNum 1]];
     _ ← ask "client.query" [Val (VStr deleteQuery); Arr [VNum 99]];
     Done tt)
    (_ ← ask "client.release" []; Done tt).

(** The first of the replies [from], [from + 1], ... ([n] of them) that
    is a failure. *)
Definition first_bad (answers : nat -> outcome value) (from n : nat) : option nat :=
  List.find (fun i => negb (ok (answers i))) (seq from n).

(** * Properties *)

(** ** Running binds, handlers and single commands *)

Lemma run_bind {A B : Type} (p : prog A) (f : A -> prog B) (w : World) :
  run (bind p f) w =
  match run p w with
  | (Fulfilled a, w') => run (f a) w'
  | (Rejected e, w') => (Rejected e, w')
  end.
Proof.
  revert w. induction p as [a | e | X c k IH]; intros w; simpl; try reflexivity.
  destruct (handle c w) as [o w']. apply IH.
Qed.

Lemma run_mbind {A B : Type} (p : prog A) (f : A -> prog B) (w : World) :
  run (p ≫= f) w =
  match run p w with
  | (Fulfilled a, w') => run (f a) w'
  | (Rejected e, w') => (Rejected e, w')
  end.
Proof. apply run_bind. Qed.

Lemma run_try_catch {A : Type} (p : prog A) (h : error -> prog A) (w : World) :
  run (try_catch p h) w =
  match run p w with
  | (Fulfilled a, w') => (Fulfilled a, w')
  | (Rejected e, w') => run (h e) w'
  end.
Proof.
  revert w. induction p as [a | e | X c k IH]; intros w; simpl; try reflexivity.
  destruct (handle c w) as [o w']. apply IH.
Qed.

Lemma run_await {X : Type} (c : cmd X) (w : World) :
  run (await c) w = handle c w.
Proof.
  unfold await. simpl. destruct (handle c w) as [[x | e] w']; reflexivity.
Qed.

(** The clock moving on leaves the log and the outside services alone. *)
Lemma log_advance dt w : log (advance dt w) = log w.
Proof. reflexivity. Qed.

Lemma count_app f l1 l2 : count f (l1 ++ l2) = (count f l1 + count f l2)%nat.
Proof. unfold count. rewrite List.filter_app, length_app. reflexivity. Qed.

(** ** The circuit breaker *)

Lemma State_eqb_eq a b : State_eqb a b = true <-> a = b.
Proof. destruct a, b; simpl; split; intros E; congruence. Qed.

Lemma call_not_open (fn : prog value) (w : World) :
  state (breaker w) <> OPEN ->
  run (call fn) w =
  match run fn w with
  | (Fulfilled v, w1) => (Fulfilled v, after_success w1)
  | (Rejected e, w1) => (Rejected e, after_failure w1)
  end.
Proof.
  intros Hst. unfold call, this_get, this_set, setTimeout.
  rewrite run_mbind, run_await. simpl.
  destruct (State_eqb (state (breaker w)) OPEN) eqn:E.
  { apply State_eqb_eq in E. contradiction. }
  rewrite run_try_catch, run_mbind.
  destruct (run fn w) as [[v | e] w1]; simpl; [reflexivity |].
  unfold after_failure. simpl.
  destruct (failures (breaker w1) + 1 >=? threshold (breaker w1)); reflexivity.
Qed.

Lemma call_open (fn : prog value) (w : World) :
  state (breaker w) = OPEN ->
  run (call fn) w = (Rejected (Error "Circuit is OPEN"), w).
Proof.
  intros Hst. unfold call, this_get. rewrite run_mbind, run_await. simpl.
  rewrite Hst. reflexivity.
Qed.

Lemma run_attempt (fn : prog value) (w : World) :
  run (attempt fn) w = (Fulfilled tt, snd (run (call fn) w)).
Proof.
  unfold attempt. rewrite run_try_catch, run_mbind.
  destruct (run (call fn) w) as [[v | e] w1]; reflexivity.
Qed.

Lemma run_attempts_S (k : nat) (fn : prog value) (w : World) :
  run (attempts (S k) fn) w = run (attempts k fn) (snd (run (call fn) w)).
Proof.
  change (attempts (S k) fn) with (attempt fn ≫= (fun _ => attempts k fn)).
  rewrite run_mbind, run_attempt. reflexivity.
Qed.

(** One failed call of the outside function through a breaker that is
    not open. *)
Lemma failed_call (w : World) :
  state (breaker w) <> OPEN -> always_fails w ->
  snd (run (call fn_call) w) = after_failure (emit EvFn w).
Proof.
  intros Hst Hf. rewrite call_not_open by exact Hst.
  unfold fn_call. rewrite run_await. simpl.
  destruct (Hf (fn_calls w)) as [e ->]. reflexivity.
Qed.

Lemma after_failure_below (w : World) :
  failures (breaker w) + 1 < threshold (breaker w) ->
  after_failure w = set_breaker (with_failures (failures (breaker w) + 1) (breaker w)) w.
Proof.
  intros Hlt. unfold after_failure. simpl.
  destruct (Z.geb_spec (failures (breaker w) + 1) (threshold (breaker w))); [lia | reflexivity].
Qed.

Lemma after_failure_reached (w : World) :
  threshold (breaker w) <= failures (breaker w) + 1 ->
  after_failure w =
  set_timers (timers w ++ [(now w + timer_delay (timeout (breaker w)), SetState HALF_OPEN)])
    (set_breaker (with_state OPEN (with_failures (failures (breaker w) + 1) (breaker w))) w).
Proof.
  intros Hge. unfold after_failure. simpl.
  destruct (Z.geb_spec (failures (breaker w) + 1) (threshold (breaker w))); [reflexivity | lia].
Qed.

Lemma fn_calls_emit_fn (w : World) : fn_calls (emit EvFn w) = S (fn_calls w).
Proof.
  unfold fn_calls, count. simpl. rewrite List.filter_app, length_app. simpl. lia.
Qed.

(** [k] failed calls in a row, the last of which brings the count to the
    threshold: the breaker is closed until then and open after. *)
Lemma trips_at_threshold (k : nat) :
  forall w : World,
    always_fails w -> state (breaker w) = CLOSED ->
    (1 <= k)%nat -> failures (breaker w) + Z.of_nat k = threshold (breaker w) ->
    let w' := snd (run (attempts k fn_call) w) in
    state (breaker w') = OPEN /\
    failures (breaker w') = threshold (breaker w) /\
    timers w' = timers w ++ [(now w + timer_delay (timeout (breaker w)), SetState HALF_OPEN)] /\
    fn_calls w' = (fn_calls w + k)%nat.
Proof.
  induction k as [| k IH]; intros w Hf Hst Hk Hsum; [lia |].
  cbv zeta. rewrite run_attempts_S.
  rewrite failed_call by first [congruence | assumption].
  destruct k as [| k].
  - rewrite after_failure_reached by (simpl; lia).
    simpl run. simpl snd.
    repeat split; [simpl; lia |].
    transitivity (fn_calls (emit EvFn w)); [reflexivity |].
    rewrite fn_calls_emit_fn. lia.
  - rewrite after_failure_below by (simpl; lia).
    set (w1 := set_breaker _ _).
    destruct (IH w1) as (H1 & H2 & H3 & H4);
      [exact Hf | exact Hst | lia | simpl; lia |].
    repeat split; try assumption.
    rewrite H4. transitivity (fn_calls (emit EvFn w) + S k)%nat; [reflexivity |].
    rewrite fn_calls_emit_fn. lia.
Qed.

(** While the count stays under the threshold the breaker stays closed. *)
Lemma closed_under_threshold (k : nat) :
  forall w : World,
    always_fails w -> state (breaker w) = CLOSED ->
    failures (breaker w) + Z.of_nat k < threshold (breaker w) ->
    let w' := snd (run (attempts k fn_call) w) in
    state (breaker w') = CLOSED /\
    failures (breaker w') = failures (breaker w) + Z.of_nat k /\
    timers w' = timers w.
Proof.
  induction k as [| k IH]; intros w Hf Hst Hlt.
  - simpl. repeat split; [assumption | lia].
  - cbv zeta. rewrite run_attempts_S.
    rewrite failed_call by first [congruence | assumption].
    rewrite after_failure_below by (simpl; lia).
    set (w1 := set_breaker _ _).
    destruct (IH w1) as (H1 & H2 & H3); [exact Hf | exact Hst | simpl; lia |].
    repeat split; try assumption.
    rewrite H2. simpl. lia.
Qed.

(** C3.  While the breaker's state is OPEN, a call through it is rejected
    at once with the error "Circuit is OPEN" (the breaker's open-circuit
    error) and the wrapped function is not invoked: the world, with its
    log of calls, is exactly as before. *)
Theorem C3_open_rejects_without_calling (fn : prog value) (w : World) :
  state (breaker w) = OPEN ->
  run (call fn) w = (Rejected (Error "Circuit is OPEN"), w) /\
  fn_calls (snd (run (call fn) w)) = fn_calls w.
Proof.
  intros Hst. rewrite (call_open fn w Hst). split; reflexivity.
Qed.

Lemma C3_open_rejects_witness :
  state (breaker (tripped 0 fn_fails)) = OPEN /\
  run (call fn_call) (tripped 0 fn_fails) =
    (Rejected (Error "Circuit is OPEN"), tripped 0 fn_fails) /\
  fn_calls (snd (run (call fn_call) (tripped 0 fn_fails))) = fn_calls (tripped 0 fn_fails).
Proof.
  split; [reflexivity |].
  apply (C3_open_rejects_without_calling fn_call (tripped 0 fn_fails)). reflexivity.
Defined.

(** C4, as the code has it.  A new breaker is CLOSED with no failures
    (threshold 5 and timeout 60000 when none is given).  While CLOSED, a
    call runs the wrapped function and hands on its outcome; a success
    sets the count to 0; a failure adds one to it, and once the count has
    reached the threshold the state becomes OPEN and a timer is set that
    will put the state to HALF-OPEN [timeout] ms later (1 ms later when
    [timeout] is not within 1 .. 2^31 - 1: see [timer_delay]).  [k]
    failures in a row that bring the count exactly to the threshold open
    the breaker. *)
Theorem C4_closed_counts_failures_and_trips
    (fn : prog value) (w : World) (th to : option Z) :
  state (breaker w) = CLOSED ->
  (state (new_CircuitBreaker th to) = CLOSED /\
   failures (new_CircuitBreaker th to) = 0 /\
   threshold (new_CircuitBreaker None to) = 5 /\
   timeout (new_CircuitBreaker th None) = 60000) /\
  (forall v w1, run fn w = (Fulfilled v, w1) ->
     run (call fn) w = (Fulfilled v, after_success w1) /\
     failures (breaker (after_success w1)) = 0) /\
  (forall e w1, run fn w = (Rejected e, w1) ->
     exists w2, run (call fn) w = (Rejected e, w2) /\
       failures (breaker w2) = failures (breaker w1) + 1 /\
       (failures (breaker w1) + 1 < threshold (breaker w1) ->
          state (breaker w2) = state (breaker w1) /\ timers w2 = timers w1) /\
       (threshold (breaker w1) <= failures (breaker w1) + 1 ->
          state (breaker w2) = OPEN /\
          timers w2 = timers w1 ++
            [(now w1 + timer_delay (timeout (breaker w1)), SetState HALF_OPEN)])) /\
  (forall k : nat, always_fails w -> (1 <= k)%nat ->
     failures (breaker w) + Z.of_nat k = threshold (breaker w) ->
     state (breaker (snd (run (attempts (k - 1) fn_call) w))) = CLOSED /\
     state (breaker (snd (run (attempts k fn_call) w))) = OPEN /\
     fn_calls (snd (run (attempts k fn_call) w)) = (fn_calls w + k)%nat).
Proof.
  intros Hst. repeat apply conj.
  - reflexivity.
  - reflexivity.
  - reflexivity.
  - reflexivity.
  - intros v w1 Hrun. rewrite call_not_open by congruence. rewrite Hrun.
    split; reflexivity.
  - intros e w1 Hrun. exists (after_failure w1).
    rewrite call_not_open by congruence. rewrite Hrun.
    split; [reflexivity |]. split; [| split].
    + unfold after_failure. simpl.
      destruct (failures (breaker w1) + 1 >=? threshold (breaker w1)); reflexivity.
    + intros Hlt. rewrite after_failure_below by exact Hlt. split; reflexivity.
    + intros Hge. rewrite after_failure_reached by exact Hge. split; reflexivity.
  - intros k Hf Hk Hsum. split; [| split].
    + apply (closed_under_threshold (k - 1) w Hf Hst). lia.
    + apply (trips_at_threshold k w Hf Hst Hk Hsum).
    + apply (trips_at_threshold k w Hf Hst Hk Hsum).
Qed.

Lemma C4_closed_counts_witness :
  state (breaker (world0 0 db_null fn_fails)) = CLOSED /\
  state (breaker (snd (run (attempts 4 fn_call) (world0 0 db_null fn_fails)))) = CLOSED /\
  state (breaker (snd (run (attempts 5 fn_call) (world0 0 db_null fn_fails)))) = OPEN /\
  fn_calls (snd (run (attempts 5 fn_call) (world0 0 db_null fn_fails))) = 5%nat.
Proof.
  split; [reflexivity |].
  destruct (C4_closed_counts_failures_and_trips fn_call (world0 0 db_null fn_fails)
              None None eq_refl) as (_ & _ & _ & Hseq).
  apply (Hseq 5%nat).
  - intros n. exists (Error "boom"). reflexivity.
  - lia.
  - reflexivity.
Defined.

(** C4 as stated fails in its last part: the breaker object keeps no
    time of opening.  Breakers driven open at different clock times are
    the same object, so nothing read off the breaker gives that time. *)
Lemma C4_no_opening_time_recorded :
  ~ exists openedAt : CircuitBreaker -> Z,
      forall t : Z,
        state (breaker (tripped t fn_fails)) = OPEN /\
        openedAt (breaker (tripped t fn_fails)) = now (tripped t fn_fails).
Proof.
  intros [openedAt Hrec].
  destruct (Hrec 0) as [_ H0]. destruct (Hrec 5000) as [_ H1].
  change (breaker (tripped 5000 fn_fails)) with (breaker (tripped 0 fn_fails)) in H1.
  rewrite H0 in H1. discriminate H1.
Qed.

(** C5, as the code has it.  A call made while the state is HALF-OPEN
    runs the wrapped function once.  If it succeeds the count is set to 0
    and the state stays HALF-OPEN (which lets calls through as CLOSED
    does).  If it fails the count goes up by one; if the count has then
    reached the threshold, the state goes back to OPEN, the count is kept
    and a new timer for HALF-OPEN is set; if the count is still below the
    threshold, the state stays HALF-OPEN and no timer is set. *)
Theorem C5_half_open_probe (w : World) :
  state (breaker w) = HALF_OPEN ->
  let '(r, w') := run (call fn_call) w in
  r = fn_outcome w (fn_calls w) /\
  fn_calls w' = S (fn_calls w) /\
  match r with
  | Fulfilled _ =>
      failures (breaker w') = 0 /\ state (breaker w') = HALF_OPEN /\
      timers w' = timers w
  | Rejected _ =>
      failures (breaker w') = failures (breaker w) + 1 /\
      if failures (breaker w) + 1 >=? threshold (breaker w) then
        state (breaker w') = OPEN /\
        timers w' = timers w ++
          [(now w + timer_delay (timeout (breaker w)), SetState HALF_OPEN)]
      else state (breaker w') = HALF_OPEN /\ timers w' = timers w
  end.
Proof.
  intros Hst. rewrite call_not_open by congruence.
  unfold fn_call. rewrite run_await. simpl handle.
  destruct (fn_outcome w (fn_calls w)) as [v | e] eqn:E.
  - split; [reflexivity |]. split; [apply fn_calls_emit_fn |].
    repeat split. exact Hst.
  - split; [reflexivity |]. split.
    + transitivity (fn_calls (emit EvFn w)); [| apply fn_calls_emit_fn].
      unfold after_failure.
      destruct (failures _ >=? threshold _); reflexivity.
    + unfold after_failure. simpl.
      destruct (failures (breaker w) + 1 >=? threshold (breaker w)); simpl;
        repeat split; exact Hst.
Qed.

Lemma C5_half_open_probe_witness :
  state (breaker (half_open fn_fails)) = HALF_OPEN /\
  state (breaker (snd (run (call fn_call) (half_open fn_fails)))) = OPEN /\
  timers (snd (run (call fn_call) (half_open fn_fails))) = [(120000, SetState HALF_OPEN)].
Proof.
  split; [reflexivity |].
  pose proof (C5_half_open_probe (half_open fn_fails) eq_refl) as H.
  destruct (run (call fn_call) (half_open fn_fails)) as [r w'] eqn:E.
  destruct H as (Hr & _ & H). subst r. simpl in H. exact (proj2 H).
Defined.

(** C5 as stated fails: a successful call in HALF-OPEN does not put the
    state back to CLOSED.  A default breaker is driven open by five
    failures, its timer runs after 60 s, and the next call succeeds. *)
Lemma C5_probe_success_stays_half_open :
  state (breaker (half_open fn_recovers)) = HALF_OPEN /\
  fst (run (call fn_call) (half_open fn_recovers)) = Fulfilled (VNum 7) /\
  state (breaker (snd (run (call fn_call) (half_open fn_recovers)))) = HALF_OPEN /\
  state (breaker (snd (run (call fn_call) (half_open fn_recovers)))) <> CLOSED.
Proof.
  repeat split; try reflexivity. discriminate.
Qed.

(** In HALF-OPEN the count can be below the threshold: a success there
    has set it to 0, and a failure after that leaves the state HALF-OPEN.
    A default breaker is driven open by five failures, its timer runs,
    the sixth call succeeds and the seventh fails. *)
Lemma half_open_outlasts_a_failure :
  let fn := fun n => if (n =? 5)%nat then Fulfilled (VNum 7) else Rejected (Error "boom") in
  let w := snd (run (call fn_call) (half_open fn)) in
  state (breaker w) = HALF_OPEN /\ failures (breaker w) = 0 /\
  fst (run (call fn_call) w) = Rejected (Error "boom") /\
  state (breaker (snd (run (call fn_call) w))) = HALF_OPEN /\
  failures (breaker (snd (run (call fn_call) w))) = 1 /\
  timers (snd (run (call fn_call) w)) = [].
Proof. repeat split. Qed.

(** ** The retry strategy *)

(** The count of rounds left stands for the loop test: no round is left
    exactly when [i < retries] fails, and a round uses one up. *)
Lemma retry_loop_guard (retries i : Z) :
  (Z.to_nat (retries - i) = 0%nat <-> ~ i < retries) /\
  (i < retries -> Z.to_nat (retries - i) = S (Z.to_nat (retries - (i + 1)))).
Proof. split; [split |]; lia. Qed.

Lemma attempt_log_SS (delay i : Z) (m : nat) :
  attempt_log delay i (S (S m)) =
  EvFn :: EvSleep (delay * (i + 1)) :: attempt_log delay (i + 1) (S m).
Proof. reflexivity. Qed.

Lemma count_fn_attempt_log (delay : Z) (m : nat) :
  forall i, count is_fn (attempt_log delay i m) = m.
Proof.
  induction m as [| m IH]; intros i; [reflexivity |].
  destruct m as [| m]; [reflexivity |].
  rewrite attempt_log_SS. specialize (IH (i + 1)). unfold count in *.
  cbn [List.filter is_fn length]. rewrite IH. reflexivity.
Qed.

Lemma delays_attempt_log (delay : Z) (m : nat) :
  forall i, delays (attempt_log delay i m) =
            map (fun j => delay * (i + 1 + Z.of_nat j)) (seq 0 (m - 1)).
Proof.
  induction m as [| m IH]; intros i; [reflexivity |].
  destruct m as [| m]; [reflexivity |].
  rewrite attempt_log_SS. specialize (IH (i + 1)). unfold delays in *.
  cbn [omap list_omap]. rewrite IH.
  replace (S (S m) - 1)%nat with (S (S m - 1)) by lia.
  simpl seq. simpl map. f_equal; [f_equal; lia |].
  rewrite <- seq_shift, map_map. apply map_ext. intros j. f_equal. lia.
Qed.

Lemma delay_before_attempt_log (delay : Z) (m : nat) :
  forall i last k, (1 <= k < m)%nat ->
    delay_before_from last (attempt_log delay i m) k = Some (delay * (i + Z.of_nat k)).
Proof.
  induction m as [| m IH]; intros i last k Hk; [lia |].
  destruct m as [| m]; [lia |].
  rewrite attempt_log_SS. destruct k as [| k]; [lia |]. cbn [delay_before_from].
  destruct k as [| k].
  - destruct m; cbn [attempt_log delay_before_from]; f_equal; lia.
  - rewrite IH by lia. f_equal. lia.
Qed.

Lemma delay_before_first (delay i : Z) (m : nat) :
  delay_before (attempt_log delay i m) 0 = None.
Proof. destruct m as [| [| m]]; reflexivity. Qed.

Section Retry.
Variables retries delay : Z.

(** One round of the loop. *)
Lemma retry_loop_round (todo : nat) (i : Z) (w : World) :
  run (retry_loop fn_call retries delay (S todo) i) w =
  match fn_outcome w (fn_calls w) with
  | Fulfilled v => (Fulfilled v, emit EvFn w)
  | Rejected e =>
      if i =? retries - 1 then (Rejected e, emit EvFn w)
      else run (retry_loop fn_call retries delay todo (i + 1))
             (advance (timer_delay (delay * (i + 1)))
                (emit (EvSleep (delay * (i + 1))) (emit EvFn w)))
  end.
Proof.
  change (retry_loop fn_call retries delay (S todo) i) with
    (try_catch fn_call
       (fun error =>
          if i =? retries - 1 then Throw error
          else _ ← await (Sleep (delay * (i + 1)));
               retry_loop fn_call retries delay todo (i + 1))).
  rewrite run_try_catch. unfold fn_call at 1. rewrite run_await. simpl handle.
  destruct (fn_outcome w (fn_calls w)) as [v | e]; [reflexivity |].
  destruct (i =? retries - 1); [reflexivity |].
  rewrite run_mbind, run_await. reflexivity.
Qed.

(** The loop entered at counter [i] with [todo = retries - i] rounds to
    go makes [m] calls, [1 <= m <= todo]: the first [m - 1] fail, and the
    outcome of the last one is the outcome of the loop; it stops short
    of [todo] only on a success. *)
Lemma retry_loop_run (todo : nat) :
  forall (i : Z) (w : World),
    (1 <= todo)%nat -> Z.of_nat todo = retries - i ->
    exists m : nat,
      (1 <= m <= todo)%nat /\
      log (snd (run (retry_loop fn_call retries delay todo i) w)) =
        log w ++ attempt_log delay i m /\
      fn_outcome (snd (run (retry_loop fn_call retries delay todo i) w)) = fn_outcome w /\
      fst (run (retry_loop fn_call retries delay todo i) w) =
        fn_outcome w (fn_calls w + (m - 1))%nat /\
      (forall j, (j < m - 1)%nat -> rejected (fn_outcome w (fn_calls w + j)%nat)) /\
      ((exists v, fn_outcome w (fn_calls w + (m - 1))%nat = Fulfilled v) \/ m = todo).
Proof.
  induction todo as [| todo IH]; intros i w Hpos Htodo; [lia |].
  rewrite retry_loop_round.
  destruct (fn_outcome w (fn_calls w)) as [v | e] eqn:E.
  - exists 1%nat. replace (fn_calls w + (1 - 1))%nat with (fn_calls w) by lia.
    rewrite E. split; [lia |]. do 3 (split; [reflexivity |]).
    split; [intros j Hj; lia |]. left. eauto.
  - destruct (Z.eqb_spec i (retries - 1)) as [Hlast | Hmore].
    + exists 1%nat. replace (fn_calls w + (1 - 1))%nat with (fn_calls w) by lia.
      rewrite E. split; [lia |]. do 3 (split; [reflexivity |]).
      split; [intros j Hj; lia |]. right. lia.
    + set (w2 := advance (timer_delay (delay * (i + 1)))
                   (emit (EvSleep (delay * (i + 1))) (emit EvFn w))).
      assert (Hcalls : fn_calls w2 = S (fn_calls w)).
      { unfold fn_calls, count. subst w2. rewrite log_advance. simpl.
        rewrite !List.filter_app, !length_app. simpl. lia. }
      destruct (IH (i + 1) w2) as (m & Hm & Hlog & Hfn & Hres & Hrej & Hend);
        [lia | lia |].
      exists (S m). split; [lia |]. split; [| split; [| split; [| split]]].
      * rewrite Hlog. destruct m as [| m]; [lia |].
        rewrite attempt_log_SS. subst w2. rewrite log_advance. simpl.
        rewrite <- !app_assoc. reflexivity.
      * rewrite Hfn. reflexivity.
      * rewrite Hres, Hcalls. change (fn_outcome w2) with (fn_outcome w).
        f_equal. lia.
      * intros j Hj. destruct j as [| j].
        { replace (fn_calls w + 0)%nat with (fn_calls w) by lia. rewrite E.
          exists e. reflexivity. }
        { specialize (Hrej j ltac:(lia)). rewrite Hcalls in Hrej.
          change (fn_outcome w2) with (fn_outcome w) in Hrej.
          replace (fn_calls w + S j)%nat with (S (fn_calls w) + j)%nat by lia.
          exact Hrej. }
      * rewrite Hcalls in Hend. change (fn_outcome w2) with (fn_outcome w) in Hend.
        replace (fn_calls w + (S m - 1))%nat with (S (fn_calls w) + (m - 1))%nat by lia.
        destruct Hend as [Hv | ->]; [left; exact Hv | right; reflexivity].
Qed.

(** The same for the whole function, [retries >= 1]. *)
Lemma withRetry_run (w : World) :
  1 <= retries ->
  exists m : nat,
    (1 <= m)%nat /\ Z.of_nat m <= retries /\
    since w (snd (run (withRetry fn_call retries delay) w)) = attempt_log delay 0 m /\
    fn_calls (snd (run (withRetry fn_call retries delay) w)) = (fn_calls w + m)%nat /\
    fst (run (withRetry fn_call retries delay) w) =
      fn_outcome w (fn_calls w + (m - 1))%nat /\
    (forall j, (j < m - 1)%nat -> rejected (fn_outcome w (fn_calls w + j)%nat)) /\
    ((exists v, fn_outcome w (fn_calls w + (m - 1))%nat = Fulfilled v) \/
     Z.of_nat m = retries).
Proof.
  intros Hn. unfold withRetry.
  destruct (retry_loop_run (Z.to_nat (retries - 0)) 0 w) as
    (m & Hm & Hlog & _ & Hres & Hrej & Hend); [lia | lia |].
  exists m. split; [lia |]. split; [lia |]. split; [| split; [| split; [| split]]].
  - unfold since. rewrite Hlog. rewrite drop_app_length. reflexivity.
  - unfold fn_calls. rewrite Hlog, count_app, count_fn_attempt_log. reflexivity.
  - exact Hres.
  - exact Hrej.
  - destruct Hend as [Hv | ->]; [left; exact Hv | right; lia].
Qed.

(** With no round to make the function returns undefined on the spot. *)
Lemma withRetry_none (fn : prog value) (w : World) :
  retries <= 0 -> run (withRetry fn retries delay) w = (Fulfilled VUndefined, w).
Proof.
  intros Hn. unfold withRetry.
  replace (Z.to_nat (retries - 0)) with 0%nat by lia. reflexivity.
Qed.
End Retry.

(** C6.  With [retries = n >= 1], [withRetry] calls the wrapped function
    at least once and at most [n] times.  If attempt [j] (the earlier ones
    having failed) succeeds, its value is the result and no further call
    is made; if all [n] attempts fail, the error of the [n]-th one is the
    error the caller gets. *)
Theorem C6_withRetry_attempts (w : World) (retries delay : Z) :
  1 <= retries ->
  let r := fst (run (withRetry fn_call retries delay) w) in
  let made := (fn_calls (snd (run (withRetry fn_call retries delay) w)) - fn_calls w)%nat in
  (1 <= made)%nat /\ Z.of_nat made <= retries /\
  (forall (j : nat) (v : value),
     Z.of_nat j < retries ->
     (forall j', (j' < j)%nat -> rejected (fn_outcome w (fn_calls w + j')%nat)) ->
     fn_outcome w (fn_calls w + j)%nat = Fulfilled v ->
     r = Fulfilled v /\ made = S j) /\
  (forall e : error,
     (forall j : nat, Z.of_nat j < retries -> rejected (fn_outcome w (fn_calls w + j)%nat)) ->
     fn_outcome w (fn_calls w + Z.to_nat (retries - 1))%nat = Rejected e ->
     r = Rejected e /\ Z.of_nat made = retries).
Proof.
  intros Hn. cbv zeta.
  destruct (withRetry_run retries delay w Hn) as
    (m & Hm1 & Hm2 & _ & Hcalls & Hres & Hrej & Hend).
  rewrite Hcalls, Hres.
  replace (fn_calls w + m - fn_calls w)%nat with m by lia.
  split; [exact Hm1 |]. split; [exact Hm2 |]. split.
  - intros j v Hj Hbefore Hok.
    assert (Hjm : j = (m - 1)%nat).
    { destruct (lt_eq_lt_dec j (m - 1)) as [[Hlt | Heq] | Hgt]; [| exact Heq |].
      - destruct (Hrej j Hlt) as [e He]. congruence.
      - destruct (Hbefore (m - 1)%nat Hgt) as [e He].
        destruct Hend as [[v' Hv'] | Hall]; [congruence | lia]. }
    subst j. split; [exact Hok | lia].
  - intros e Hall Hlast.
    destruct Hend as [[v Hv] | Hfull].
    + destruct (Hall (m - 1)%nat ltac:(lia)) as [e' He']. congruence.
    + replace (m - 1)%nat with (Z.to_nat (retries - 1)) by lia.
      split; [exact Hlast | exact Hfull].
Qed.

Lemma C6_withRetry_attempts_witness :
  1 <= 3 /\
  fst (run (withRetry_defaults fn_call) (world0 0 db_null fn_fails)) =
    Rejected (Error "boom") /\
  Z.of_nat (fn_calls (snd (run (withRetry_defaults fn_call) (world0 0 db_null fn_fails)))
            - fn_calls (world0 0 db_null fn_fails)) = 3.
Proof.
  split; [lia |].
  destruct (C6_withRetry_attempts (world0 0 db_null fn_fails) 3 1000 ltac:(lia))
    as (_ & _ & _ & Hfail).
  apply (Hfail (Error "boom")).
  - intros j _. exists (Error "boom"). reflexivity.
  - reflexivity.
Defined.

(** C7, as the code has it.  Nothing is waited before attempt 0; the wait
    before attempt [k >= 1] is [delay * k], that is, the wait after failed
    attempt [i] is [delay * (i + 1)]; there is one wait between any two
    consecutive attempts and none after the last; and for [delay >= 0] the
    waits of one call, in order, never decrease. *)
Theorem C7_retry_waits (w : World) (retries delay : Z) :
  let w' := snd (run (withRetry fn_call retries delay) w) in
  let made := (fn_calls w' - fn_calls w)%nat in
  delay_before (since w w') 0 = None /\
  (forall k : nat, (1 <= k < made)%nat ->
     delay_before (since w w') k = Some (delay * Z.of_nat k)) /\
  length (delays (since w w')) = (made - 1)%nat /\
  (forall i : nat, (i < made - 1)%nat ->
     delays (since w w') !! i = Some (delay * (Z.of_nat i + 1))) /\
  (0 <= delay ->
   forall (i j : nat) (d1 d2 : Z), (i <= j)%nat ->
     delays (since w w') !! i = Some d1 -> delays (since w w') !! j = Some d2 ->
     d1 <= d2).
Proof.
  cbv zeta. destruct (Z.le_gt_cases 1 retries) as [Hn | Hn].
  - destruct (withRetry_run retries delay w Hn) as
      (m & Hm1 & Hm2 & Hsince & Hcalls & _).
    rewrite Hcalls, Hsince.
    replace (fn_calls w + m - fn_calls w)%nat with m by lia.
    assert (Hlook : forall i d, delays (attempt_log delay 0 m) !! i = Some d ->
                      (i < m - 1)%nat /\ d = delay * (Z.of_nat i + 1)).
    { intros i d. rewrite delays_attempt_log. rewrite list_lookup_fmap.
      destruct (seq 0 (m - 1) !! i) as [x |] eqn:Ex; [| discriminate].
      apply lookup_seq in Ex. destruct Ex as [-> Hi]. simpl. intros [= <-].
      split; [lia | f_equal; lia]. }
    split; [apply delay_before_first |]. split; [| split; [| split]].
    + intros k Hk. unfold delay_before. rewrite delay_before_attempt_log by exact Hk.
      f_equal.
    + rewrite delays_attempt_log, length_map, length_seq. reflexivity.
    + intros i Hi. rewrite delays_attempt_log, list_lookup_fmap.
      rewrite lookup_seq_lt by exact Hi. simpl. f_equal. f_equal. lia.
    + intros Hd i j d1 d2 Hij H1 H2.
      apply Hlook in H1 as [_ ->]. apply Hlook in H2 as [_ ->]. nia.
  - rewrite withRetry_none by lia. simpl snd.
    unfold since. rewrite drop_all. replace (fn_calls w - fn_calls w)%nat with 0%nat by lia.
    split; [reflexivity |]. split; [intros k Hk; lia |]. split; [reflexivity |].
    split; [intros i Hi; lia |]. intros _ i j d1 d2 _ H1. discriminate H1.
Qed.

Lemma C7_retry_waits_witness :
  0 <= 1000 /\ delays (retry_demo 1000) !! 0%nat = Some 1000 /\
  delays (retry_demo 1000) !! 1%nat = Some 2000 /\ 1000 <= 2000.
Proof.
  split; [lia |]. split; [reflexivity |]. split; [reflexivity |].
  destruct (C7_retry_waits (world0 0 db_null fn_fails) 3 1000) as (_ & _ & _ & _ & Hmono).
  apply (Hmono ltac:(lia) 0%nat 1%nat 1000 2000); [lia | reflexivity | reflexivity].
Defined.

(** C7 as stated fails.  Three failing attempts with [delay = 1000] log
    call, wait 1000, call, wait 2000, call: no wait comes before attempt
    0, and the wait before attempt 1 is [1000 = delay * 1], not
    [delay * (1 + 1)].  With [delay = -1000] the timeouts asked for are
    -1000 and then -2000, which decreases. *)
Lemma C7_wait_before_attempt_is_off_by_one :
  retry_demo 1000 = [EvFn; EvSleep 1000; EvFn; EvSleep 2000; EvFn] /\
  delay_before (retry_demo 1000) 0 <> Some (1000 * (0 + 1)) /\
  delay_before (retry_demo 1000) 1 = Some 1000 /\
  delay_before (retry_demo 1000) 1 <> Some (1000 * (1 + 1)) /\
  delays (retry_demo (-1000)) = [-1000; -2000] /\ ~ (-1000 <= -2000).
Proof.
  split; [reflexivity |]. split; [discriminate |]. split; [reflexivity |].
  split; [discriminate |]. split; [reflexivity | lia].
Qed.

(** C10.  With [retries <= 0] the loop body never runs: [withRetry] is
    the program that returns undefined, whatever [fn] is.  It fulfils with
    undefined and leaves the world as it was (no call of [fn], no wait),
    which is also what a single successful attempt of a function
    returning undefined gives. *)
Theorem C10_withRetry_no_rounds (fn : prog value) (retries delay : Z) (w : World) :
  retries <= 0 ->
  withRetry fn retries delay = Ret VUndefined /\
  run (withRetry fn retries delay) w = (Fulfilled VUndefined, w) /\
  run (withRetry fn retries delay) w = run (withRetry (Ret VUndefined) 1 delay) w.
Proof.
  intros Hn. split; [| split].
  - unfold withRetry. replace (Z.to_nat (retries - 0)) with 0%nat by lia. reflexivity.
  - apply withRetry_none. exact Hn.
  - rewrite withRetry_none by exact Hn. reflexivity.
Qed.

Lemma C10_withRetry_no_rounds_witness :
  0 <= 0 /\
  run (withRetry fn_call 0 1000) (world0 0 db_null fn_fails) =
    (Fulfilled VUndefined, world0 0 db_null fn_fails).
Proof.
  split; [lia |].
  apply (C10_withRetry_no_rounds fn_call 0 1000 (world0 0 db_null fn_fails)). lia.
Defined.

(** ** Cache-aside *)

Lemma run_settle {A : Type} (o : outcome A) (w : World) : run (settle o) w = (o, w).
Proof. destruct o; reflexivity. Qed.

Lemma redis_cmds_emit_get key w : redis_cmds (emit (EvRedisGet key) w) = S (redis_cmds w).
Proof.
  unfold redis_cmds, count. simpl. rewrite List.filter_app, length_app. simpl. lia.
Qed.

Lemma redis_cmds_emit_db id w : redis_cmds (emit (EvDb id) w) = redis_cmds w.
Proof.
  unfold redis_cmds, count. simpl. rewrite List.filter_app, length_app. simpl. lia.
Qed.

Lemma db_calls_emit_get key w : db_calls (emit (EvRedisGet key) w) = db_calls w.
Proof.
  unfold db_calls, count. simpl. rewrite List.filter_app, length_app. simpl. lia.
Qed.

Lemma db_calls_emit_set key txt ex w : db_calls (emit (EvRedisSet key txt ex) w) = db_calls w.
Proof.
  unfold db_calls, count. simpl. rewrite List.filter_app, length_app. simpl. lia.
Qed.

Lemma db_calls_emit_db id w : db_calls (emit (EvDb id) w) = S (db_calls w).
Proof.
  unfold db_calls, count. simpl. rewrite List.filter_app, length_app. simpl. lia.
Qed.

Section CacheAsideFacts.
Context `{JSON}.

(** [getUser], branch by branch. *)
Lemma run_getUser (id : value) (w : World) :
  run (getUser id) w =
  let key := "user:" +:+ ToString id in
  let w1 := emit (EvRedisGet key) w in
  match redis_fault w (redis_cmds w) with
  | Some e => (Rejected e, w1)
  | None =>
      if truthy (redis_lookup w key) then
        (JSON_parse (default EmptyString (redis_lookup w key)), w1)
      else
        match db_users w (db_calls w) id with
        | Rejected e => (Rejected e, emit (EvDb id) w1)
        | Fulfilled user => write_back key user 3600 (emit (EvDb id) w1)
        end
  end.
Proof.
  unfold getUser. rewrite run_mbind, run_await. cbv zeta. simpl handle.
  destruct (redis_fault w (redis_cmds w)) as [e |] eqn:Eget; [reflexivity |].
  destruct (truthy (redis_lookup w _)) eqn:Ehit; [apply run_settle |].
  rewrite run_mbind, run_await. simpl handle.
  rewrite db_calls_emit_get.
  change (db_users (emit _ w)) with (db_users w).
  destruct (db_users w (db_calls w) id) as [user | e]; [| reflexivity].
  rewrite run_mbind, run_await. simpl handle. unfold write_back.
  simpl redis_fault. destruct (redis_fault w (redis_cmds (emit _ _))); reflexivity.
Qed.

(** [cacheAsideExample], branch by branch. *)
Lemma run_cacheAsideExample (userId : value) (w : World) :
  run (cacheAsideExample userId) w =
  let cacheKey := "user:" +:+ ToString userId in
  let w1 := emit (EvRedisGet cacheKey) w in
  match redis_fault w (redis_cmds w) with
  | Some e => (Rejected e, w1)
  | None =>
      if truthy (redis_lookup w cacheKey) then
        (JSON_parse (default EmptyString (redis_lookup w cacheKey)), w1)
      else
        write_back cacheKey (VObj [("id", userId); ("name", VStr "From DB")]) 600 w1
  end.
Proof.
  unfold cacheAsideExample. cbv zeta. rewrite run_mbind, run_await. simpl handle.
  destruct (redis_fault w (redis_cmds w)) as [e |] eqn:Eget; [reflexivity |].
  destruct (truthy (redis_lookup w _)) eqn:Ehit; [apply run_settle |].
  rewrite run_mbind, run_await. simpl handle. unfold write_back.
  simpl redis_fault. destruct (redis_fault w (redis_cmds (emit _ _))); reflexivity.
Qed.

Lemma write_back_ok key user ex w :
  redis_fault w (redis_cmds w) = None ->
  fst (write_back key user ex w) = Fulfilled user /\
  redis (snd (write_back key user ex w)) =
    <[key := mkEntry (JSON_stringify user) (Some (now w + 1000 * ex))]> (redis w).
Proof. intros Hok. unfold write_back. rewrite Hok. split; reflexivity. Qed.

Lemma write_back_fails key user ex w e :
  redis_fault w (redis_cmds w) = Some e ->
  fst (write_back key user ex w) = Rejected e /\
  redis (snd (write_back key user ex w)) = redis w.
Proof. intros Hko. unfold write_back. rewrite Hko. split; reflexivity. Qed.

Lemma write_back_rejected key user ex w e :
  fst (write_back key user ex w) = Rejected e ->
  redis (snd (write_back key user ex w)) = redis w.
Proof.
  unfold write_back. destruct (redis_fault w (redis_cmds w)); [reflexivity | discriminate].
Qed.

Lemma write_back_db_calls key user ex w :
  db_calls (snd (write_back key user ex w)) = db_calls w.
Proof.
  unfold write_back. destruct (redis_fault w (redis_cmds w)); simpl snd;
    rewrite db_calls_emit_set; reflexivity.
Qed.

(** A live entry with a non-empty text is a hit. *)
Lemma lookup_hit (w : World) (key : string) (e : entry) :
  redis w !! key = Some e -> live (now w) e = true -> text e <> EmptyString ->
  redis_lookup w key = Some (text e) /\ truthy (redis_lookup w key) = true.
Proof.
  intros Hin Hlive Htext. unfold redis_lookup. rewrite Hin, Hlive. split; [reflexivity |].
  simpl. destruct (String.eqb_spec (text e) EmptyString); [contradiction | reflexivity].
Qed.
End CacheAsideFacts.

Lemma since_emit2 (a b : event) (w : World) : since w (emit b (emit a w)) = [a; b].
Proof.
  unfold since. cbn [log emit]. rewrite <- app_assoc. apply drop_app_length.
Qed.

Lemma redis_cmds_miss_path id key w :
  redis_cmds (emit (EvDb id) (emit (EvRedisGet key) w)) = S (redis_cmds w).
Proof. rewrite redis_cmds_emit_db, redis_cmds_emit_get. reflexivity. Qed.

(** C1, as the code has it.  When the key of [id] has a live entry whose
    text is not empty and the read succeeds, [getUser] and
    [cacheAsideExample] settle with [JSON.parse] of that text right after
    the read: the database is not called and nothing is written. *)
Theorem C1_hit_returns_cached_without_origin `{JSON}
    (id : value) (w : World) (e : entry) :
  redis w !! ("user:" +:+ ToString id) = Some e ->
  live (now w) e = true ->
  text e <> EmptyString ->
  redis_fault w (redis_cmds w) = None ->
  run (getUser id) w =
    (JSON_parse (text e), emit (EvRedisGet ("user:" +:+ ToString id)) w) /\
  db_calls (snd (run (getUser id) w)) = db_calls w /\
  run (cacheAsideExample id) w =
    (JSON_parse (text e), emit (EvRedisGet ("user:" +:+ ToString id)) w) /\
  redis (snd (run (getUser id) w)) = redis w /\
  redis (snd (run (cacheAsideExample id) w)) = redis w.
Proof.
  intros Hin Hlive Htext Hread.
  destruct (lookup_hit w _ e Hin Hlive Htext) as [Hget Hhit].
  rewrite run_getUser, run_cacheAsideExample. cbv zeta.
  rewrite Hread, Hhit, Hget. simpl.
  repeat split. apply db_calls_emit_get.
Qed.

Lemma C1_hit_witness :
  redis (world_with "user:1" "null" db_user) !! "user:1" = Some (mkEntry "null" None) /\
  live (now (world_with "user:1" "null" db_user)) (mkEntry "null" None) = true /\
  run (getUser (VNum 1)) (world_with "user:1" "null" db_user) =
    (Fulfilled VNull, emit (EvRedisGet "user:1") (world_with "user:1" "null" db_user)) /\
  db_calls (snd (run (getUser (VNum 1)) (world_with "user:1" "null" db_user))) = 0%nat.
Proof.
  destruct (C1_hit_returns_cached_without_origin (VNum 1)
              (world_with "user:1" "null" db_user) (mkEntry "null" None))
    as (Hrun & Hdb & _); [reflexivity | reflexivity | discriminate | reflexivity |].
  split; [reflexivity |]. split; [reflexivity |]. split; [exact Hrun | exact Hdb].
Defined.

(** C1 as stated fails for an entry that holds the empty text: the key
    is there and has not expired, yet [if (cached)] takes it for a miss,
    the database is called once and its value is what comes back. *)
Lemma C1_empty_text_entry_reaches_origin :
  redis (world_with "user:1" EmptyString db_user) !! "user:1" = Some (mkEntry EmptyString None) /\
  live (now (world_with "user:1" EmptyString db_user)) (mkEntry EmptyString None) = true /\
  fst (run (getUser (VNum 1)) (world_with "user:1" EmptyString db_user)) =
    Fulfilled (VObj [("id", VNum 1)]) /\
  db_calls (world_with "user:1" EmptyString db_user) = 0%nat /\
  db_calls (snd (run (getUser (VNum 1)) (world_with "user:1" EmptyString db_user))) = 1%nat.
Proof. repeat split. Qed.

Lemma since_emit3 (a b c : event) (w : World) :
  since w (emit c (emit b (emit a w))) = [a; b; c].
Proof.
  unfold since. cbn [log emit]. rewrite <- !app_assoc. apply drop_app_length.
Qed.

(** C8, as the code has it.  A rejected fetch leaves the keyspace as it
    was.  On a miss whose read the store has answered: if the database
    call fails, its error comes back, no write is issued and the keyspace
    is unchanged; if it succeeds, the write is issued, and then the entry
    (key, text of the value, now + ttl) is written and the value returned
    when the store takes the write, whereas the store's error comes back
    and no entry is written when the store fails the write.  So the
    keyspace changes only when the database call has succeeded and the
    store has taken the write. *)
Theorem C8_entry_written_iff_origin_and_write_succeed `{JSON} (id : value) (w : World) :
  let key := "user:" +:+ ToString id in
  let r := run (getUser id) w in
  let r' := run (cacheAsideExample id) w in
  (forall e, fst r = Rejected e -> redis (snd r) = redis w) /\
  (forall e, fst r' = Rejected e -> redis (snd r') = redis w) /\
  (redis_fault w (redis_cmds w) = None -> truthy (redis_lookup w key) = false ->
   (forall user, db_users w (db_calls w) id = Fulfilled user ->
      since w (snd r) =
        [EvRedisGet key; EvDb id; EvRedisSet key (JSON_stringify user) 3600] /\
      (redis_fault w (S (redis_cmds w)) = None ->
         fst r = Fulfilled user /\
         redis (snd r) =
           <[key := mkEntry (JSON_stringify user) (Some (now w + 1000 * 3600))]> (redis w)) /\
      (forall e, redis_fault w (S (redis_cmds w)) = Some e ->
         fst r = Rejected e /\ redis (snd r) = redis w)) /\
   (forall e, db_users w (db_calls w) id = Rejected e ->
      fst r = Rejected e /\ redis (snd r) = redis w /\
      since w (snd r) = [EvRedisGet key; EvDb id]) /\
   (redis_fault w (S (redis_cmds w)) = None ->
      fst r' = Fulfilled (VObj [("id", id); ("name", VStr "From DB")]) /\
      redis (snd r') =
        <[key := mkEntry (JSON_stringify (VObj [("id", id); ("name", VStr "From DB")]))
                         (Some (now w + 1000 * 600))]> (redis w)) /\
   (forall e, redis_fault w (S (redis_cmds w)) = Some e ->
      fst r' = Rejected e /\ redis (snd r') = redis w)) /\
  (redis (snd r) <> redis w ->
   exists user, db_users w (db_calls w) id = Fulfilled user /\
                redis_fault w (S (redis_cmds w)) = None /\
                db_calls (snd r) = S (db_calls w)).
Proof.
  cbv zeta. rewrite run_getUser, run_cacheAsideExample. cbv zeta.
  set (key := "user:" +:+ ToString id).
  assert (Hidx : forall e, redis_fault w (S (redis_cmds w)) = e ->
            redis_fault (emit (EvDb id) (emit (EvRedisGet key) w))
              (redis_cmds (emit (EvDb id) (emit (EvRedisGet key) w))) = e)
    by (intros e He; rewrite redis_cmds_miss_path; exact He).
  assert (Hidx' : forall e, redis_fault w (S (redis_cmds w)) = e ->
            redis_fault (emit (EvRedisGet key) w)
              (redis_cmds (emit (EvRedisGet key) w)) = e)
    by (intros e He; rewrite redis_cmds_emit_get; exact He).
  split; [| split; [| split]].
  - intros e.
    destruct (redis_fault w (redis_cmds w)); [reflexivity |].
    destruct (truthy (redis_lookup w key)); [reflexivity |].
    destruct (db_users w (db_calls w) id); [| reflexivity].
    intros Hrej. rewrite (write_back_rejected _ _ _ _ _ Hrej). reflexivity.
  - intros e.
    destruct (redis_fault w (redis_cmds w)); [reflexivity |].
    destruct (truthy (redis_lookup w key)); [reflexivity |].
    intros Hrej. rewrite (write_back_rejected _ _ _ _ _ Hrej). reflexivity.
  - intros Hread Hmiss. rewrite Hread, Hmiss. split; [| split; [| split]].
    + intros user Hdb. rewrite Hdb. split; [| split].
      * unfold write_back.
        destruct (redis_fault _ (redis_cmds (emit (EvDb id) _))); apply since_emit3.
      * intros Hwrite. exact (write_back_ok key user 3600 _ (Hidx _ Hwrite)).
      * intros e Hwrite. exact (write_back_fails key user 3600 _ e (Hidx _ Hwrite)).
    + intros e Hdb. rewrite Hdb. split; [reflexivity |]. split; [reflexivity |].
      apply since_emit2.
    + intros Hwrite. exact (write_back_ok key _ 600 _ (Hidx' _ Hwrite)).
    + intros e Hwrite. exact (write_back_fails key _ 600 _ e (Hidx' _ Hwrite)).
  - destruct (redis_fault w (redis_cmds w)); [intros Hne; contradiction Hne; reflexivity |].
    destruct (truthy (redis_lookup w key)); [intros Hne; contradiction Hne; reflexivity |].
    destruct (db_users w (db_calls w) id) as [user | e];
      [| intros Hne; contradiction Hne; reflexivity].
    intros Hne. exists user. split; [reflexivity |]. split.
    + pose proof (Hidx _ eq_refl) as Hi.
      destruct (redis_fault w (S (redis_cmds w))) as [e |]; [| reflexivity].
      contradiction Hne.
      exact (proj2 (write_back_fails key user 3600 _ e Hi)).
    + rewrite write_back_db_calls, db_calls_emit_db, db_calls_emit_get. reflexivity.
Qed.

Lemma C8_entry_written_witness :
  fst (run (getUser (VNum 1)) (world0 0 db_down fn_fails)) =
    Rejected (Error "connection terminated") /\
  redis (snd (run (getUser (VNum 1)) (world0 0 db_down fn_fails))) = ∅ /\
  fst (run (getUser (VNum 1)) (world0 0 db_user fn_fails)) = Fulfilled (VObj [("id", VNum 1)]) /\
  redis (snd (run (getUser (VNum 1)) (world0 0 db_user fn_fails))) !! "user:1" =
    Some (mkEntry (JSON_stringify (VObj [("id", VNum 1)])) (Some 3600000)) /\
  fst (run (getUser (VNum 1)) (world_faulty 1 db_user)) = Rejected (Error "ECONNREFUSED") /\
  redis (snd (run (getUser (VNum 1)) (world_faulty 1 db_user))) = ∅.
Proof.
  destruct (C8_entry_written_iff_origin_and_write_succeed (VNum 1) (world0 0 db_down fn_fails))
    as (_ & _ & Hmiss & _).
  destruct (Hmiss eq_refl eq_refl) as (_ & Hfail & _).
  destruct (Hfail (Error "connection terminated") eq_refl) as (Hr & Hs & _).
  destruct (C8_entry_written_iff_origin_and_write_succeed (VNum 1) (world0 0 db_user fn_fails))
    as (_ & _ & Hmiss' & _).
  destruct (Hmiss' eq_refl eq_refl) as (Hok & _ & _).
  destruct (Hok (VObj [("id", VNum 1)]) eq_refl) as (_ & Hgood & _).
  destruct (Hgood eq_refl) as (Hr' & Hs').
  destruct (C8_entry_written_iff_origin_and_write_succeed (VNum 1) (world_faulty 1 db_user))
    as (_ & _ & Hmiss'' & _).
  destruct (Hmiss'' eq_refl eq_refl) as (Hok' & _ & _).
  destruct (Hok' (VObj [("id", VNum 1)]) eq_refl) as (_ & _ & Hbad).
  destruct (Hbad (Error "ECONNREFUSED") eq_refl) as (Hr'' & Hs'').
  split; [exact Hr |]. split; [exact Hs |]. split; [exact Hr' |].
  split; [rewrite Hs'; reflexivity |]. split; [exact Hr'' | exact Hs''].
Defined.

(** C8 as stated fails in its "if" half: the database call succeeds, yet
    no entry is written and the value is not returned.  The store fails
    the write, and [getUser] is rejected with the store's error after one
    database call that returned the user; the keyspace holds nothing for
    the key.  [cacheAsideExample], whose origin cannot fail, is rejected
    in the same way. *)
Lemma C8_origin_success_without_entry :
  db_users (world_faulty 1 db_user) 0%nat (VNum 1) = Fulfilled (VObj [("id", VNum 1)]) /\
  db_calls (snd (run (getUser (VNum 1)) (world_faulty 1 db_user))) = 1%nat /\
  fst (run (getUser (VNum 1)) (world_faulty 1 db_user)) = Rejected (Error "ECONNREFUSED") /\
  redis (snd (run (getUser (VNum 1)) (world_faulty 1 db_user))) !! "user:1" = None /\
  fst (run (cacheAsideExample (VNum 1)) (world_faulty 1 db_user)) =
    Rejected (Error "ECONNREFUSED") /\
  redis (snd (run (cacheAsideExample (VNum 1)) (world_faulty 1 db_user))) !! "user:1" = None.
Proof. repeat split. Qed.

(** C9, as the code has it.  Neither sketch catches an error of the
    store, so it reaches the caller as it is.  A failing read rejects the
    call with that error and the database is not called; a failing write
    rejects the call with that error after the database has been called,
    so the value read from the database is not returned. *)
Theorem C9_store_errors_reach_caller `{JSON} (id : value) (w : World) (e : error) :
  let key := "user:" +:+ ToString id in
  (redis_fault w (redis_cmds w) = Some e ->
   run (getUser id) w = (Rejected e, emit (EvRedisGet key) w) /\
   run (cacheAsideExample id) w = (Rejected e, emit (EvRedisGet key) w) /\
   db_calls (snd (run (getUser id) w)) = db_calls w) /\
  (redis_fault w (redis_cmds w) = None -> truthy (redis_lookup w key) = false ->
   redis_fault w (S (redis_cmds w)) = Some e ->
   (forall user, db_users w (db_calls w) id = Fulfilled user ->
      fst (run (getUser id) w) = Rejected e /\
      db_calls (snd (run (getUser id) w)) = S (db_calls w) /\
      redis (snd (run (getUser id) w)) = redis w) /\
   fst (run (cacheAsideExample id) w) = Rejected e /\
   redis (snd (run (cacheAsideExample id) w)) = redis w).
Proof.
  cbv zeta. rewrite run_getUser, run_cacheAsideExample. cbv zeta.
  set (key := "user:" +:+ ToString id). split.
  - intros Hread. rewrite Hread. simpl. repeat split. apply db_calls_emit_get.
  - intros Hread Hmiss Hwrite. rewrite Hread, Hmiss. split.
    + intros user Hdb. rewrite Hdb. rewrite write_back_db_calls.
      rewrite db_calls_emit_db, db_calls_emit_get.
      assert (Hw : redis_fault (emit (EvDb id) (emit (EvRedisGet key) w))
                     (redis_cmds (emit (EvDb id) (emit (EvRedisGet key) w))) = Some e)
        by (rewrite redis_cmds_miss_path; exact Hwrite).
      destruct (write_back_fails key user 3600 _ e Hw) as [Hr Hs].
      split; [exact Hr |]. split; [reflexivity | exact Hs].
    + assert (Hw : redis_fault (emit (EvRedisGet key) w)
                     (redis_cmds (emit (EvRedisGet key) w)) = Some e)
        by (rewrite redis_cmds_emit_get; exact Hwrite).
      exact (write_back_fails key _ 600 _ e Hw).
Qed.

Lemma C9_store_errors_witness :
  run (getUser (VNum 1)) (world_faulty 0 db_user) =
    (Rejected (Error "ECONNREFUSED"), emit (EvRedisGet "user:1") (world_faulty 0 db_user)) /\
  fst (run (getUser (VNum 1)) (world_faulty 1 db_user)) = Rejected (Error "ECONNREFUSED").
Proof.
  destruct (C9_store_errors_reach_caller (VNum 1) (world_faulty 0 db_user)
              (Error "ECONNREFUSED")) as (Hread & _).
  destruct (Hread eq_refl) as (Hr & _).
  destruct (C9_store_errors_reach_caller (VNum 1) (world_faulty 1 db_user)
              (Error "ECONNREFUSED")) as (_ & Hwrite).
  destruct (Hwrite eq_refl eq_refl eq_refl) as (Hw & _).
  destruct (Hw (VObj [("id", VNum 1)]) eq_refl) as (Hr' & _).
  split; [exact Hr | exact Hr'].
Defined.

(** C9 as stated fails.  With a store that fails the read, [getUser]
    is rejected with the store's error and never calls the database; with
    a store that fails the write, it is rejected with the store's error
    although the database has returned the user. *)
Lemma C9_store_error_is_surfaced :
  fst (run (getUser (VNum 1)) (world_faulty 0 db_user)) = Rejected (Error "ECONNREFUSED") /\
  db_calls (snd (run (getUser (VNum 1)) (world_faulty 0 db_user))) = 0%nat /\
  fst (run (getUser (VNum 1)) (world_faulty 1 db_user)) = Rejected (Error "ECONNREFUSED") /\
  db_calls (snd (run (getUser (VNum 1)) (world_faulty 1 db_user))) = 1%nat /\
  fst (run (cacheAsideExample (VNum 1)) (world_faulty 0 db_user)) =
    Rejected (Error "ECONNREFUSED").
Proof. repeat split. Qed.

(** ** Several calls in flight *)

Lemma run_sched_app {A : Type} (s1 s2 : list nat) (pool : list (prog A)) (w : World) :
  run_sched (s1 ++ s2) pool w =
  run_sched s2 (fst (run_sched s1 pool w)) (snd (run_sched s1 pool w)).
Proof.
  revert pool w. induction s1 as [| i s1 IH]; intros pool w; [reflexivity |].
  simpl. destruct (step_task i pool w) as [pool' w']. apply IH.
Qed.

Lemma iter_shift {S : Type} (f : S -> S) (m : nat) (x : S) :
  Nat.iter m f (f x) = f (Nat.iter m f x).
Proof. induction m as [| m IH]; [reflexivity |]. simpl. rewrite IH. reflexivity. Qed.

(** One round over [m] tasks that all wait on the same command [c], in a
    region [P] of worlds where [c] always settles to [o]: every task
    moves on to [k o], and the world has gone through [c] [m] times. *)
Lemma round_same_command {A X : Type} (P : World -> Prop)
    (c : cmd X) (k : outcome X -> prog A) (o : outcome X) (f : World -> World) :
  (forall w, P w -> handle c w = (o, f w) /\ P (f w)) ->
  forall (m : nat) (done : list (prog A)) (w : World),
    P w ->
    run_sched (seq (length done) m) (done ++ replicate m (Do c k)) w =
      (done ++ replicate m (k o), Nat.iter m f w) /\
    P (Nat.iter m f w).
Proof.
  intros Hc. induction m as [| m IH]; intros done w HP.
  - simpl. split; [reflexivity | exact HP].
  - destruct (Hc w HP) as [Hh HP'].
    cbn [seq run_sched]. unfold step_task.
    rewrite lookup_app_r by lia. rewrite Nat.sub_diag. cbn [replicate lookup list_lookup].
    rewrite Hh.
    replace (<[length done := k o]> (done ++ Do c k :: replicate m (Do c k)))
      with ((done ++ [k o]) ++ replicate m (Do c k)).
    2:{ rewrite insert_app_r_alt by lia. rewrite Nat.sub_diag. simpl.
        rewrite <- app_assoc. reflexivity. }
    replace (S (length done)) with (length (done ++ [k o]))
      by (rewrite length_app; simpl; lia).
    destruct (IH (done ++ [k o]) (f w) HP') as [Hrun HPm].
    rewrite Hrun. rewrite <- app_assoc.
    change (Nat.iter (S m) f w) with (f (Nat.iter m f w)). rewrite <- iter_shift.
    split; [reflexivity | exact HPm].
Qed.

Lemma log_iter (f : World -> World) (ev : event) :
  (forall w, log (f w) = log w ++ [ev]) ->
  forall m w, log (Nat.iter m f w) = log w ++ replicate m ev.
Proof.
  intros Hf. induction m as [| m IH]; intros w.
  - simpl. rewrite app_nil_r. reflexivity.
  - change (Nat.iter (S m) f w) with (f (Nat.iter m f w)).
    rewrite Hf, IH. rewrite <- app_assoc. f_equal.
    clear. induction m as [| m IH]; [reflexivity |]. simpl. rewrite IH. reflexivity.
Qed.

Lemma count_replicate (p : event -> bool) (m : nat) (ev : event) :
  count p (replicate m ev) = if p ev then m else 0%nat.
Proof.
  unfold count. induction m as [| m IH]; simpl.
  - destruct (p ev); reflexivity.
  - destruct (p ev); simpl; rewrite IH; reflexivity.
Qed.

Section Concurrent.
Context `{JSON}.
Variables (id user : value).

Local Abbreviation key := ("user:" +:+ ToString id).

(** The three stages of [getUser] on a miss, as commands with their
    continuations. *)
Lemma getUser_stages :
  exists k1 k2 k3,
    getUser id = Do (RedisGet key) k1 /\
    (forall c, truthy c = false -> k1 (Fulfilled c) = Do (DbFindById id) k2) /\
    k2 (Fulfilled user) = Do (RedisSet key (JSON_stringify user) 3600) k3 /\
    k3 (Fulfilled tt) = Ret user.
Proof.
  do 3 eexists. split; [reflexivity |]. split; [| split].
  - intros c Hc. cbn. rewrite Hc. reflexivity.
  - reflexivity.
  - reflexivity.
Qed.

Lemma cacheAsideExample_stages :
  exists k1 k2,
    cacheAsideExample id = Do (RedisGet key) k1 /\
    (forall c, truthy c = false ->
       k1 (Fulfilled c) =
       Do (RedisSet key (JSON_stringify (VObj [("id", id); ("name", VStr "From DB")])) 600) k2) /\
    k2 (Fulfilled tt) = Ret (VObj [("id", id); ("name", VStr "From DB")]).
Proof.
  do 2 eexists. split; [reflexivity |]. split.
  - intros c Hc. cbn. rewrite Hc. reflexivity.
  - reflexivity.
Qed.

(** A round of reads that all miss. *)
Lemma round_of_reads {A : Type} (k : outcome (option string) -> prog A)
    (n : nat) (w : World) :
  store_sound w ->
  run_sched (seq 0 n) (replicate n (Do (RedisGet key) k)) w =
    (replicate n (k (Fulfilled (redis_lookup w key))),
     Nat.iter n (emit (EvRedisGet key)) w).
Proof.
  intros Hs.
  apply (round_same_command
           (fun w' => store_sound w' /\ redis_lookup w' key = redis_lookup w key)
           (RedisGet key) k (Fulfilled (redis_lookup w key)) (emit (EvRedisGet key))
           ltac:(intros w' [Hs' Hl]; simpl; rewrite Hs', Hl; split; [reflexivity | split; assumption])
           n [] w (conj Hs eq_refl)).
Qed.

(** A round of database calls. *)
Lemma round_of_db_calls {A : Type} (k : outcome value -> prog A)
    (n : nat) (w : World) :
  db_steady id user w ->
  run_sched (seq 0 n) (replicate n (Do (DbFindById id) k)) w =
    (replicate n (k (Fulfilled user)), Nat.iter n (emit (EvDb id)) w).
Proof.
  intros Hd.
  apply (round_same_command (db_steady id user)
           (DbFindById id) k (Fulfilled user) (emit (EvDb id))
           ltac:(intros w' Hd'; simpl; rewrite Hd'; split; [reflexivity | exact Hd'])
           n [] w Hd).
Qed.

(** A round of write-backs. *)
Lemma round_of_writes {A : Type} (k : outcome unit -> prog A)
    (v : value) (ex : Z) (n : nat) (w : World) :
  0 < ex -> store_sound w ->
  run_sched (seq 0 n) (replicate n (Do (RedisSet key (JSON_stringify v) ex) k)) w =
    (replicate n (k (Fulfilled tt)), Nat.iter n (written key v ex) w).
Proof.
  intros Hex Hs.
  apply (round_same_command store_sound
           (RedisSet key (JSON_stringify v) ex) k (Fulfilled tt) (written key v ex)
           ltac:(intros w' Hs'; simpl; rewrite Hs';
                 replace (0 <? ex) with true by (symmetry; apply Z.ltb_lt; exact Hex);
                 split; [reflexivity | exact Hs'])
           n [] w Hs).
Qed.

Lemma iter_emit_keeps (ev : event) (n : nat) (w : World) :
  redis_fault (Nat.iter n (emit ev) w) = redis_fault w /\
  db_users (Nat.iter n (emit ev) w) = db_users w /\
  redis (Nat.iter n (emit ev) w) = redis w /\
  now (Nat.iter n (emit ev) w) = now w.
Proof.
  induction n as [| n IH]; [repeat split |]. simpl. exact IH.
Qed.

(** [n] calls of [getUser] for one id, started together on a miss. *)
Lemma getUser_started_together (n : nat) (w : World) :
  store_sound w -> db_steady id user w -> truthy (redis_lookup w key) = false ->
  run_sched (round_robin n 3) (replicate n (getUser id)) w =
    (replicate n (Ret user),
     Nat.iter n (written key user 3600)
       (Nat.iter n (emit (EvDb id)) (Nat.iter n (emit (EvRedisGet key)) w))).
Proof.
  intros Hs Hd Hmiss.
  destruct getUser_stages as (k1 & k2 & k3 & E0 & E1 & E2 & E3).
  rewrite E0. cbn [round_robin]. rewrite app_nil_r.
  rewrite run_sched_app, round_of_reads by exact Hs. cbn [fst snd].
  rewrite (E1 _ Hmiss).
  destruct (iter_emit_keeps (EvRedisGet key) n w) as (F1 & D1 & _).
  rewrite run_sched_app, round_of_db_calls
    by (intros k; rewrite D1; apply Hd).
  cbn [fst snd]. rewrite E2.
  destruct (iter_emit_keeps (EvDb id) n (Nat.iter n (emit (EvRedisGet key)) w))
    as (F2 & _).
  rewrite round_of_writes; [| lia | intros k; rewrite F2, F1; apply Hs].
  rewrite E3. reflexivity.
Qed.

(** The same for [cacheAsideExample]. *)
Lemma cacheAsideExample_started_together (n : nat) (w : World) :
  store_sound w -> truthy (redis_lookup w key) = false ->
  run_sched (round_robin n 2) (replicate n (cacheAsideExample id)) w =
    (replicate n (Ret (VObj [("id", id); ("name", VStr "From DB")])),
     Nat.iter n (written key (VObj [("id", id); ("name", VStr "From DB")]) 600)
       (Nat.iter n (emit (EvRedisGet key)) w)).
Proof.
  intros Hs Hmiss.
  destruct cacheAsideExample_stages as (k1 & k2 & E0 & E1 & E2).
  rewrite E0. cbn [round_robin]. rewrite app_nil_r.
  rewrite run_sched_app, round_of_reads by exact Hs. cbn [fst snd].
  rewrite (E1 _ Hmiss).
  destruct (iter_emit_keeps (EvRedisGet key) n w) as (F1 & _).
  rewrite round_of_writes; [| lia | intros k; rewrite F1; apply Hs].
  rewrite E2. reflexivity.
Qed.

Lemma log_written (v : value) (ex : Z) (n : nat) (w : World) :
  log (Nat.iter n (written key v ex) w) =
  log w ++ replicate n (EvRedisSet key (JSON_stringify v) ex).
Proof. apply log_iter. intros w'. reflexivity. Qed.

Lemma log_emitted (ev : event) (n : nat) (w : World) :
  log (Nat.iter n (emit ev) w) = log w ++ replicate n ev.
Proof. apply log_iter. intros w'. reflexivity. Qed.
End Concurrent.

(** C2, as the code has it.  Neither sketch shares a fetch between
    callers.  When [n] calls for one id are started together on a miss
    (every call has read the cache before any call writes it), with a
    sound store and a database that answers [user] every time, each call
    makes its own database call and its own write-back: [n] reads, then
    [n] database calls, then [n] writes, and every call returns [user].
    For [cacheAsideExample], whose database read is an object literal,
    each of the [n] calls does its own read and its own write-back. *)
Theorem C2_each_concurrent_miss_calls_origin `{JSON}
    (n : nat) (id user : value) (w : World) :
  let key := "user:" +:+ ToString id in
  let after := run_sched (round_robin n 3) (replicate n (getUser id)) w in
  let after' := run_sched (round_robin n 2) (replicate n (cacheAsideExample id)) w in
  store_sound w -> db_steady id user w -> truthy (redis_lookup w key) = false ->
  fst after = replicate n (Ret user) /\
  db_calls (snd after) = (db_calls w + n)%nat /\
  since w (snd after) =
    replicate n (EvRedisGet key) ++ replicate n (EvDb id) ++
    replicate n (EvRedisSet key (JSON_stringify user) 3600) /\
  fst after' = replicate n (Ret (VObj [("id", id); ("name", VStr "From DB")])) /\
  since w (snd after') =
    replicate n (EvRedisGet key) ++
    replicate n (EvRedisSet key
                   (JSON_stringify (VObj [("id", id); ("name", VStr "From DB")])) 600).
Proof.
  cbv zeta. intros Hs Hd Hmiss.
  rewrite (getUser_started_together id user n w Hs Hd Hmiss).
  rewrite (cacheAsideExample_started_together id n w Hs Hmiss).
  cbn [fst snd].
  assert (Hlog : log (Nat.iter n (written ("user:" +:+ ToString id) user 3600)
                        (Nat.iter n (emit (EvDb id))
                           (Nat.iter n (emit (EvRedisGet ("user:" +:+ ToString id))) w))) =
                 log w ++ (replicate n (EvRedisGet ("user:" +:+ ToString id)) ++
                           replicate n (EvDb id) ++
                           replicate n (EvRedisSet ("user:" +:+ ToString id)
                                          (JSON_stringify user) 3600))).
  { rewrite log_written, !log_emitted. rewrite <- !app_assoc. reflexivity. }
  split; [reflexivity |]. split; [| split; [| split; [reflexivity |]]].
  - unfold db_calls. rewrite Hlog. rewrite !count_app, !count_replicate. simpl. lia.
  - unfold since. rewrite Hlog. apply drop_app_length.
  - unfold since. rewrite log_written, log_emitted. rewrite <- app_assoc.
    apply drop_app_length.
Qed.

Lemma C2_each_concurrent_miss_witness :
  truthy (redis_lookup (world0 0 db_user fn_fails) "user:1") = false /\
  fst (run_sched (round_robin 3 3) (replicate 3 (getUser (VNum 1)))
         (world0 0 db_user fn_fails)) =
    replicate 3 (Ret (VObj [("id", VNum 1)])) /\
  db_calls (snd (run_sched (round_robin 3 3) (replicate 3 (getUser (VNum 1)))
                   (world0 0 db_user fn_fails))) = 3%nat.
Proof.
  destruct (C2_each_concurrent_miss_calls_origin 3 (VNum 1) (VObj [("id", VNum 1)])
              (world0 0 db_user fn_fails))
    as (Hpool & Hdb & _).
  - intros k. reflexivity.
  - intros k. reflexivity.
  - reflexivity.
  - split; [reflexivity |]. split; [exact Hpool | exact Hdb].
Defined.

(** C2 as stated fails: two calls of [getUser] for the same id, started
    together on an empty cache, both miss and both call the database, so
    the origin is invoked twice, not once. *)
Lemma C2_two_concurrent_misses_call_origin_twice :
  redis (world0 0 db_user fn_fails) = ∅ /\
  log (snd (run_sched (round_robin 2 3) [getUser (VNum 1); getUser (VNum 1)]
              (world0 0 db_user fn_fails))) =
    [EvRedisGet "user:1"; EvRedisGet "user:1"; EvDb (VNum 1); EvDb (VNum 1);
     EvRedisSet "user:1" (JSON_stringify (VObj [("id", VNum 1)])) 3600;
     EvRedisSet "user:1" (JSON_stringify (VObj [("id", VNum 1)])) 3600] /\
  db_calls (snd (run_sched (round_robin 2 3) [getUser (VNum 1); getUser (VNum 1)]
                   (world0 0 db_user fn_fails))) = 2%nat /\
  db_calls (snd (run_sched (round_robin 2 3) [getUser (VNum 1); getUser (VNum 1)]
                   (world0 0 db_user fn_fails))) <> 1%nat.
Proof. repeat split. discriminate. Qed.

(** * Further properties of the sketches *)

(** ** Retry: time spent waiting *)

Lemma timer_delay_bounds (ms : Z) : 1 <= timer_delay ms <= TIMEOUT_MAX.
Proof.
  unfold timer_delay, TIMEOUT_MAX.
  destruct (Z.leb_spec 1 ms), (Z.leb_spec ms 2147483647); simpl; lia.
Qed.

Lemma timer_delay_in_range (ms : Z) : 1 <= ms <= TIMEOUT_MAX -> timer_delay ms = ms.
Proof.
  unfold timer_delay, TIMEOUT_MAX. intros Hms.
  destruct (Z.leb_spec 1 ms), (Z.leb_spec ms 2147483647); simpl; unfold TIMEOUT_MAX in *; lia.
Qed.

Lemma timer_delay_out_of_range (ms : Z) : ms < 1 \/ TIMEOUT_MAX < ms -> timer_delay ms = 1.
Proof.
  unfold timer_delay, TIMEOUT_MAX. intros Hms.
  destruct (Z.leb_spec 1 ms), (Z.leb_spec ms 2147483647); simpl; unfold TIMEOUT_MAX in *; lia.
Qed.

Lemma waits_attempt_log_step (delay i : Z) (m : nat) :
  waits (attempt_log delay i (S (S m))) =
  timer_delay (delay * (i + 1)) + waits (attempt_log delay (i + 1) (S m)).
Proof. rewrite attempt_log_SS. reflexivity. Qed.

(** Every wait lasts between 1 ms and 2^31 - 1 ms. *)
Lemma waits_attempt_log_bounds (delay : Z) (m : nat) :
  forall i, (1 <= m)%nat ->
    Z.of_nat m - 1 <= waits (attempt_log delay i m) <= (Z.of_nat m - 1) * TIMEOUT_MAX.
Proof.
  induction m as [| m IH]; intros i Hm; [lia |].
  destruct m as [| m]; [simpl; lia |].
  rewrite waits_attempt_log_step.
  pose proof (timer_delay_bounds (delay * (i + 1))) as Hd.
  pose proof (IH (i + 1) ltac:(lia)) as Hw.
  unfold TIMEOUT_MAX in *. lia.
Qed.

(** Delays that the timer takes as they are add up to an arithmetic series. *)
Lemma waits_attempt_log (delay : Z) (m : nat) :
  forall i, 1 <= delay -> 0 <= i -> (1 <= m)%nat ->
    delay * (i + Z.of_nat m - 1) <= TIMEOUT_MAX ->
    2 * waits (attempt_log delay i m) = delay * (Z.of_nat m - 1) * (2 * i + Z.of_nat m).
Proof.
  induction m as [| m IH]; intros i Hd Hi Hm Hmax; [lia |].
  destruct m as [| m]; [simpl; lia |].
  rewrite waits_attempt_log_step.
  assert (Hin : 1 <= delay * (i + 1) <= TIMEOUT_MAX) by (unfold TIMEOUT_MAX in *; nia).
  rewrite (timer_delay_in_range _ Hin).
  assert (Hmax' : delay * (i + 1 + Z.of_nat (S m) - 1) <= TIMEOUT_MAX).
  { replace (i + 1 + Z.of_nat (S m) - 1) with (i + Z.of_nat (S (S m)) - 1) by lia.
    exact Hmax. }
  pose proof (IH (i + 1) Hd ltac:(lia) ltac:(lia) Hmax') as E.
  nia.
Qed.

(** Delays that the timer does not take as they are each last 1 ms. *)
Lemma waits_attempt_log_clamped (delay : Z) (m : nat) :
  forall i, delay < 1 \/ TIMEOUT_MAX < delay -> 0 <= i -> (1 <= m)%nat ->
    waits (attempt_log delay i m) = Z.of_nat m - 1.
Proof.
  induction m as [| m IH]; intros i Hd Hi Hm; [lia |].
  destruct m as [| m]; [simpl; lia |].
  rewrite waits_attempt_log_step.
  assert (Hout : delay * (i + 1) < 1 \/ TIMEOUT_MAX < delay * (i + 1))
    by (unfold TIMEOUT_MAX in *; nia).
  rewrite (timer_delay_out_of_range _ Hout).
  rewrite (IH (i + 1) Hd ltac:(lia) ltac:(lia)). lia.
Qed.

Lemma retry_loop_clock (retries delay : Z) (todo : nat) :
  forall (i : Z) (w : World),
    (1 <= todo)%nat -> Z.of_nat todo = retries - i ->
    exists m : nat,
      (1 <= m <= todo)%nat /\
      log (snd (run (retry_loop fn_call retries delay todo i) w)) =
        log w ++ attempt_log delay i m /\
      now (snd (run (retry_loop fn_call retries delay todo i) w)) =
        now w + waits (attempt_log delay i m).
Proof.
  induction todo as [| todo IH]; intros i w Hpos Htodo; [lia |].
  rewrite retry_loop_round.
  destruct (fn_outcome w (fn_calls w)) as [v | e].
  - exists 1%nat. split; [lia |]. split; [reflexivity |]. simpl. lia.
  - destruct (Z.eqb_spec i (retries - 1)) as [Hlast | Hmore].
    + exists 1%nat. split; [lia |]. split; [reflexivity |]. simpl. lia.
    + set (w2 := advance (timer_delay (delay * (i + 1)))
                   (emit (EvSleep (delay * (i + 1))) (emit EvFn w))).
      destruct (IH (i + 1) w2) as (m & Hm & Hlog & Hnow); [lia | lia |].
      exists (S m). split; [lia |]. destruct m as [| m]; [lia |].
      split.
      * rewrite attempt_log_SS, Hlog. subst w2. rewrite log_advance. simpl.
        rewrite <- !app_assoc. reflexivity.
      * rewrite waits_attempt_log_step, Hnow. subst w2. simpl now. lia.
Qed.

(** X1.  The time [withRetry] spends waiting.  With [retries = n >= 1], a
    call that made [m] attempts has waited [m - 1] times, each time
    between 1 ms and 2^31 - 1 ms.  When [delay >= 1] and the longest delay
    that can be asked for, [delay * (n - 1)], is at most 2^31 - 1, the
    waits add up to [delay * (1 + ... + (m - 1))], so to no more than
    [delay * n * (n - 1) / 2].  When [delay] is below 1 or above 2^31 - 1,
    no delay asked for is one the timer takes as it is: every wait lasts
    1 ms and the call has waited [m - 1] ms in all. *)
Theorem X1_withRetry_total_wait (w : World) (retries delay : Z) :
  1 <= retries ->
  let w' := snd (run (withRetry fn_call retries delay) w) in
  let made := Z.of_nat (fn_calls w' - fn_calls w) in
  1 <= made <= retries /\
  made - 1 <= now w' - now w <= (made - 1) * TIMEOUT_MAX /\
  (1 <= delay -> delay * (retries - 1) <= TIMEOUT_MAX ->
     2 * (now w' - now w) = delay * (made - 1) * made /\
     2 * (now w' - now w) <= delay * (retries - 1) * retries) /\
  (delay < 1 \/ TIMEOUT_MAX < delay -> now w' - now w = made - 1).
Proof.
  intros Hn. cbv zeta. unfold withRetry.
  destruct (retry_loop_clock retries delay (Z.to_nat (retries - 0)) 0 w)
    as (m & Hm & Hlog & Hnow); [lia | lia |].
  assert (Hmade : (fn_calls (snd (run (retry_loop fn_call retries delay
                                         (Z.to_nat (retries - 0)) 0) w))
                   - fn_calls w)%nat = m).
  { unfold fn_calls. rewrite Hlog, count_app, count_fn_attempt_log. lia. }
  rewrite Hmade, Hnow.
  replace (now w + waits (attempt_log delay 0 m) - now w)
    with (waits (attempt_log delay 0 m)) by lia.
  split; [lia |]. split; [| split].
  - apply waits_attempt_log_bounds. lia.
  - intros Hd Hmax.
    assert (Hmax' : delay * (0 + Z.of_nat m - 1) <= TIMEOUT_MAX)
      by (unfold TIMEOUT_MAX in *; nia).
    pose proof (waits_attempt_log delay m 0 Hd ltac:(lia) ltac:(lia) Hmax') as E.
    set (W := waits (attempt_log delay 0 m)) in *.
    assert (Hm1 : 0 <= Z.of_nat m - 1 <= retries - 1) by lia.
    assert (Hmm : delay * (Z.of_nat m - 1) * Z.of_nat m <= delay * (retries - 1) * retries).
    { apply Z.mul_le_mono_nonneg; try nia. }
    split; nia.
  - intros Hd. apply waits_attempt_log_clamped; [exact Hd | lia | lia].
Qed.

Lemma X1_withRetry_total_wait_witness :
  2 * (now (snd (run (withRetry fn_call 3 1000) (world0 0 db_null fn_fails))) - 0) =
    1000 * (3 - 1) * 3 /\
  now (snd (run (withRetry fn_call 2 2147483648) (world0 0 db_null fn_fails))) - 0 = 2 - 1.
Proof.
  destruct (X1_withRetry_total_wait (world0 0 db_null fn_fails) 3 1000) as (_ & _ & H & _);
    [lia |].
  destruct (X1_withRetry_total_wait (world0 0 db_null fn_fails) 2 2147483648)
    as (_ & _ & _ & H'); [lia |].
  destruct H as [H _]; [lia | unfold TIMEOUT_MAX; lia |].
  specialize (H' ltac:(right; unfold TIMEOUT_MAX; lia)).
  split; [exact H | exact H'].
Defined.

(** ** Circuit breaker: staying open, the timer, and the reset on success *)

Lemma run_settled (p : prog value) (w : World) :
  run (settled p) w = (Fulfilled (fst (run p w)), snd (run p w)).
Proof.
  unfold settled. rewrite run_try_catch, run_mbind.
  destruct (run p w) as [[v | e] w1]; reflexivity.
Qed.

Lemma run_call_each_cons (fn : prog value) (fns : list (prog value)) (w : World) :
  run (call_each (fn :: fns)) w =
  let '(os, w') := run (call_each fns) (snd (run (call fn) w)) in
  (match os with
   | Fulfilled l => Fulfilled (fst (run (call fn) w) :: l)
   | Rejected e => Rejected e
   end, w').
Proof.
  change (call_each (fn :: fns))
    with (settled (call fn) ≫= (fun o => call_each fns ≫= (fun os => Ret (o :: os)))).
  rewrite run_mbind, run_settled, run_mbind.
  destruct (run (call_each fns) (snd (run (call fn) w))) as [[l | e] w']; reflexivity.
Qed.

(** X2.  Calling an open breaker changes nothing, however often it is
    done and whatever is to be called: every one of the calls is rejected
    with "Circuit is OPEN", none of the wrapped functions is reached and
    the breaker, like all the rest of the world, stays as it is. *)
Theorem X2_open_breaker_ignores_calls (fns : list (prog value)) (w : World) :
  state (breaker w) = OPEN ->
  run (call_each fns) w =
    (Fulfilled (map (fun _ => Rejected (Error "Circuit is OPEN")) fns), w).
Proof.
  intros Hst. induction fns as [| fn fns IH]; [reflexivity |].
  rewrite run_call_each_cons, (call_open fn w Hst). cbn [fst snd].
  rewrite IH. reflexivity.
Qed.

Lemma X2_open_breaker_ignores_calls_witness :
  run (call_each [fn_call; Ret VNull; fn_call]) (tripped 0 fn_fails) =
    (Fulfilled [Rejected (Error "Circuit is OPEN"); Rejected (Error "Circuit is OPEN");
                Rejected (Error "Circuit is OPEN")],
     tripped 0 fn_fails).
Proof.
  apply (X2_open_breaker_ignores_calls [fn_call; Ret VNull; fn_call] (tripped 0 fn_fails)).
  reflexivity.
Defined.

Lemma run_fn_call (w : World) :
  run fn_call w = (fn_outcome w (fn_calls w), emit EvFn w).
Proof. unfold fn_call. rewrite run_await. reflexivity. Qed.

Lemma now_after_failure (w : World) : now (after_failure w) = now w.
Proof.
  unfold after_failure.
  destruct (failures _ >=? threshold _); reflexivity.
Qed.

(** A call through the breaker takes no time on the clock. *)
Lemma now_call (w : World) : now (snd (run (call fn_call) w)) = now w.
Proof.
  destruct (State_eqb (state (breaker w)) OPEN) eqn:E.
  - apply State_eqb_eq in E. rewrite (call_open fn_call w E). reflexivity.
  - rewrite call_not_open by (intros Hst; rewrite Hst in E; discriminate).
    rewrite run_fn_call.
    destruct (fn_outcome w (fn_calls w)); [reflexivity |].
    exact (now_after_failure (emit EvFn w)).
Qed.

Lemma now_attempts (k : nat) : forall w, now (snd (run (attempts k fn_call) w)) = now w.
Proof.
  induction k as [| k IH]; intros w; [reflexivity |].
  rewrite run_attempts_S, IH. apply now_call.
Qed.

(** The clock moving on over a breaker with one pending timer. *)
Lemma advance_one_timer (w : World) (dt t : Z) (s : State) :
  timers w = [(t, SetState s)] ->
  (now w + dt < t ->
     breaker (advance dt w) = breaker w /\ timers (advance dt w) = [(t, SetState s)]) /\
  (t <= now w + dt ->
     breaker (advance dt w) = with_state s (breaker w) /\ timers (advance dt w) = []).
Proof.
  intros Ht. unfold advance. rewrite Ht. cbn [List.filter]. unfold due. cbn [fst].
  split; intros Hlt.
  - destruct (Z.leb_spec t (now w + dt)); [lia |]. split; reflexivity.
  - destruct (Z.leb_spec t (now w + dt)); [| lia]. split; reflexivity.
Qed.

(** X3.  How long the breaker stays open.  Once [k] failures in a row
    have opened it (no other timer pending), it is still OPEN, and
    rejects calls, at every moment before its timer is due; from then on
    the timer has run, the state is HALF-OPEN and no timer is pending.
    The timer is due [timeout] ms after the opening when [timeout] is
    within 1 .. 2^31 - 1, and 1 ms after it for any other [timeout]. *)
Theorem X3_breaker_open_for_timeout (k : nat) (w : World) (dt : Z) :
  always_fails w -> state (breaker w) = CLOSED -> timers w = [] ->
  (1 <= k)%nat -> failures (breaker w) + Z.of_nat k = threshold (breaker w) ->
  let opened := snd (run (attempts k fn_call) w) in
  let wait := timer_delay (timeout (breaker w)) in
  (dt < wait ->
     state (breaker (advance dt opened)) = OPEN /\
     fst (run (call fn_call) (advance dt opened)) = Rejected (Error "Circuit is OPEN")) /\
  (wait <= dt ->
     state (breaker (advance dt opened)) = HALF_OPEN /\
     timers (advance dt opened) = []) /\
  (1 <= timeout (breaker w) <= TIMEOUT_MAX -> wait = timeout (breaker w)) /\
  (timeout (breaker w) < 1 \/ TIMEOUT_MAX < timeout (breaker w) -> wait = 1).
Proof.
  intros Hf Hst Htm Hk Hsum. cbv zeta.
  destruct (trips_at_threshold k w Hf Hst Hk Hsum) as (Hopen & _ & Htimers & _).
  rewrite Htm in Htimers. simpl in Htimers.
  pose proof (now_attempts k w) as Hnow.
  destruct (advance_one_timer _ dt _ _ Htimers) as [Hbefore Hafter].
  rewrite Hnow in Hbefore, Hafter.
  split; [| split; [| split]].
  - intros Hdt. destruct (Hbefore ltac:(lia)) as [Hb _].
    assert (Hs : state (breaker (advance dt (snd (run (attempts k fn_call) w)))) = OPEN)
      by (rewrite Hb; exact Hopen).
    split; [exact Hs |]. rewrite (call_open _ _ Hs). reflexivity.
  - intros Hdt. destruct (Hafter ltac:(lia)) as [Hb Ht]. rewrite Hb.
    split; [reflexivity | exact Ht].
  - apply timer_delay_in_range.
  - apply timer_delay_out_of_range.
Qed.

Lemma X3_breaker_open_for_timeout_witness :
  state (breaker (advance 59999 (tripped 0 fn_fails))) = OPEN /\
  state (breaker (advance 60000 (tripped 0 fn_fails))) = HALF_OPEN /\
  state (breaker (advance 50
                    (snd (run (attempts 1 fn_call)
                            (set_breaker (new_CircuitBreaker (Some 1) (Some 2147483648))
                               (world0 0 db_null fn_fails)))))) = HALF_OPEN.
Proof.
  assert (Hf : always_fails (world0 0 db_null fn_fails))
    by (intros n; exists (Error "boom"); reflexivity).
  destruct (X3_breaker_open_for_timeout 5 (world0 0 db_null fn_fails) 59999
              Hf eq_refl eq_refl ltac:(lia) eq_refl) as [H1 _].
  destruct (X3_breaker_open_for_timeout 5 (world0 0 db_null fn_fails) 60000
              Hf eq_refl eq_refl ltac:(lia) eq_refl) as (_ & H2 & _).
  destruct (X3_breaker_open_for_timeout 1
              (set_breaker (new_CircuitBreaker (Some 1) (Some 2147483648))
                 (world0 0 db_null fn_fails)) 50
              Hf eq_refl eq_refl ltac:(lia) eq_refl) as (_ & H3 & _).
  split; [apply H1; reflexivity |].
  split; [apply H2; discriminate | apply H3; discriminate].
Defined.

Lemma failed_call_at (w : World) :
  state (breaker w) <> OPEN -> rejected (fn_outcome w (fn_calls w)) ->
  snd (run (call fn_call) w) = after_failure (emit EvFn w).
Proof.
  intros Hst [e He]. rewrite call_not_open by exact Hst.
  rewrite run_fn_call, He. reflexivity.
Qed.

(** A run of [k] failures that stays under the threshold, the wrapped
    function failing on these [k] calls. *)
Lemma closed_run (k : nat) :
  forall w : World,
    (forall j, (j < k)%nat -> rejected (fn_outcome w (fn_calls w + j)%nat)) ->
    state (breaker w) = CLOSED ->
    failures (breaker w) + Z.of_nat k < threshold (breaker w) ->
    let w' := snd (run (attempts k fn_call) w) in
    state (breaker w') = CLOSED /\
    failures (breaker w') = failures (breaker w) + Z.of_nat k /\
    fn_calls w' = (fn_calls w + k)%nat.
Proof.
  induction k as [| k IH]; intros w Hf Hst Hlt.
  - simpl. split; [assumption |]. split; lia.
  - cbv zeta. rewrite run_attempts_S.
    rewrite failed_call_at;
      [| congruence | replace (fn_calls w) with (fn_calls w + 0)%nat by lia; apply Hf; lia].
    rewrite after_failure_below by (simpl; lia).
    set (w1 := set_breaker _ _).
    assert (Hc : fn_calls w1 = S (fn_calls w)) by apply fn_calls_emit_fn.
    destruct (IH w1) as (H1 & H2 & H3).
    + intros j Hj. rewrite Hc. change (fn_outcome w1) with (fn_outcome w).
      replace (S (fn_calls w) + j)%nat with (fn_calls w + S j)%nat by lia.
      apply Hf. lia.
    + exact Hst.
    + simpl. lia.
    + split; [exact H1 |]. split; [rewrite H2; simpl; lia | rewrite H3, Hc; lia].
Qed.

(** X4.  Only failures in a row count.  Whatever the count was, one
    success sets it back to 0: after a success followed by [k] failures,
    [k] below the threshold, the breaker is still CLOSED with count [k]. *)
Theorem X4_success_resets_failure_count (k : nat) (w : World) (v : value) :
  state (breaker w) = CLOSED ->
  fn_outcome w (fn_calls w) = Fulfilled v ->
  (forall j, (1 <= j <= k)%nat -> rejected (fn_outcome w (fn_calls w + j)%nat)) ->
  Z.of_nat k < threshold (breaker w) ->
  let w' := snd (run (attempts (S k) fn_call) w) in
  state (breaker w') = CLOSED /\
  failures (breaker w') = Z.of_nat k /\
  fn_calls w' = (fn_calls w + S k)%nat.
Proof.
  intros Hst Hok Hfail Hk. cbv zeta. rewrite run_attempts_S.
  rewrite call_not_open by congruence. rewrite run_fn_call, Hok. cbn [snd].
  set (w1 := after_success (emit EvFn w)).
  assert (Hc : fn_calls w1 = S (fn_calls w)) by apply fn_calls_emit_fn.
  destruct (closed_run k w1) as (H1 & H2 & H3).
  - intros j Hj. rewrite Hc. change (fn_outcome w1) with (fn_outcome w).
    replace (S (fn_calls w) + j)%nat with (fn_calls w + S j)%nat by lia.
    apply Hfail. lia.
  - exact Hst.
  - simpl. lia.
  - split; [exact H1 |]. split; [rewrite H2; simpl; lia | rewrite H3, Hc; lia].
Qed.

Lemma X4_success_resets_failure_count_witness :
  state (breaker (snd (run (attempts 5 fn_call)
                         (set_breaker (mkBreaker 4 5 60000 CLOSED)
                            (world0 0 db_null
                               (fun n => if (n =? 0)%nat then Fulfilled VNull
                                         else Rejected (Error "boom"))))))) = CLOSED.
Proof.
  apply (X4_success_resets_failure_count 4
           (set_breaker (mkBreaker 4 5 60000 CLOSED)
              (world0 0 db_null
                 (fun n => if (n =? 0)%nat then Fulfilled VNull
                           else Rejected (Error "boom")))) VNull).
  - reflexivity.
  - reflexivity.
  - intros j Hj. exists (Error "boom"). destruct j as [| j]; [lia | reflexivity].
  - simpl. lia.
Defined.

(** ** Cache-aside: what a write-back is good for *)

Lemma db_calls_extend (w w' : World) (l : list event) :
  log w' = log w ++ l -> db_calls w' = (db_calls w + count is_db l)%nat.
Proof. intros Hl. unfold db_calls. rewrite Hl. apply count_app. Qed.

Section CacheRoundTrip.
Context `{JSON}.
Variable id : value.

Local Abbreviation key := ("user:" +:+ ToString id).

Lemma getUser_miss_fills (user : value) (w : World) :
  store_sound w -> truthy (redis_lookup w key) = false ->
  db_users w (db_calls w) id = Fulfilled user ->
  run (getUser id) w =
    (Fulfilled user, written key user 3600 (emit (EvDb id) (emit (EvRedisGet key) w))).
Proof.
  intros Hs Hmiss Hdb. rewrite run_getUser. cbv zeta.
  rewrite (Hs (redis_cmds w)), Hmiss, Hdb. unfold write_back.
  change (redis_fault (emit (EvDb id) (emit (EvRedisGet key) w))) with (redis_fault w).
  rewrite (Hs _). reflexivity.
Qed.

Lemma cacheAsideExample_miss_fills (w : World) :
  store_sound w -> truthy (redis_lookup w key) = false ->
  run (cacheAsideExample id) w =
    (Fulfilled (VObj [("id", id); ("name", VStr "From DB")]),
     written key (VObj [("id", id); ("name", VStr "From DB")]) 600
       (emit (EvRedisGet key) w)).
Proof.
  intros Hs Hmiss. rewrite run_cacheAsideExample. cbv zeta.
  rewrite (Hs (redis_cmds w)), Hmiss. unfold write_back.
  change (redis_fault (emit (EvRedisGet key) w)) with (redis_fault w).
  rewrite (Hs _). reflexivity.
Qed.

(** A read of the key [dt] ms after a write-back with [ex] seconds to
    live. *)
Lemma lookup_after_write (v : value) (ex : Z) (w : World) (dt : Z) :
  JSON_stringify v <> EmptyString ->
  (dt < 1000 * ex ->
     redis_lookup (advance dt (written key v ex w)) key = Some (JSON_stringify v) /\
     truthy (redis_lookup (advance dt (written key v ex w)) key) = true) /\
  (1000 * ex <= dt ->
     truthy (redis_lookup (advance dt (written key v ex w)) key) = false).
Proof.
  intros Htext.
  assert (Hin : redis (advance dt (written key v ex w)) !! key =
                Some (mkEntry (JSON_stringify v) (Some (now w + 1000 * ex))))
    by (cbn; apply lookup_insert_eq).
  split; intros Hdt.
  - apply (lookup_hit _ key _ Hin); [| exact Htext].
    cbn. apply Z.ltb_lt. lia.
  - unfold redis_lookup. rewrite Hin. unfold live. cbn.
    replace (now w + dt <? now w + 1000 * ex) with false
      by (symmetry; apply Z.ltb_ge; lia).
    reflexivity.
Qed.

Lemma getUser_db_calls_on_miss (w : World) :
  redis_fault w (redis_cmds w) = None -> truthy (redis_lookup w key) = false ->
  db_calls (snd (run (getUser id) w)) = S (db_calls w).
Proof.
  intros Hread Hmiss. rewrite run_getUser. cbv zeta. rewrite Hread, Hmiss.
  destruct (db_users w (db_calls w) id) as [user | e].
  - rewrite write_back_db_calls, db_calls_emit_db, db_calls_emit_get. reflexivity.
  - cbn [snd]. rewrite db_calls_emit_db, db_calls_emit_get. reflexivity.
Qed.

Lemma getUser_on_hit (w : World) (txt : string) :
  redis_fault w (redis_cmds w) = None ->
  redis_lookup w key = Some txt -> truthy (redis_lookup w key) = true ->
  run (getUser id) w = (JSON_parse txt, emit (EvRedisGet key) w).
Proof.
  intros Hread Hget Hhit. rewrite run_getUser. cbv zeta.
  rewrite Hread, Hhit, Hget. reflexivity.
Qed.
End CacheRoundTrip.

(** X5.  A second call is served from the cache.  On a miss with a sound
    store, [getUser(id)] followed by [getUser(id)] calls the database
    once: the second call returns [JSON.parse] of the text the first one
    wrote, provided that text is not empty. *)
Theorem X5_second_getUser_is_a_hit `{JSON} (id user : value) (w : World) :
  store_sound w -> truthy (redis_lookup w ("user:" +:+ ToString id)) = false ->
  db_users w (db_calls w) id = Fulfilled user ->
  JSON_stringify user <> EmptyString ->
  let r := run (_ ← getUser id; getUser id) w in
  fst r = JSON_parse (JSON_stringify user) /\
  db_calls (snd r) = S (db_calls w) /\
  since w (snd r) =
    [EvRedisGet ("user:" +:+ ToString id); EvDb id;
     EvRedisSet ("user:" +:+ ToString id) (JSON_stringify user) 3600;
     EvRedisGet ("user:" +:+ ToString id)].
Proof.
  intros Hs Hmiss Hdb Htext. cbv zeta.
  rewrite run_mbind, (getUser_miss_fills id user w Hs Hmiss Hdb).
  set (w1 := emit (EvDb id) (emit (EvRedisGet ("user:" +:+ ToString id)) w)).
  set (w2 := written ("user:" +:+ ToString id) user 3600 w1).
  assert (Hin : redis w2 !! ("user:" +:+ ToString id) =
                Some (mkEntry (JSON_stringify user) (Some (now w + 1000 * 3600))))
    by (cbn; apply lookup_insert_eq).
  destruct (lookup_hit w2 _ _ Hin) as [Hget Hhit]; [cbn; apply Z.ltb_lt; lia | exact Htext |].
  assert (Hs' : store_sound w2) by exact Hs.
  rewrite (getUser_on_hit id w2 _ (Hs' _) Hget Hhit). cbn [fst snd].
  split; [reflexivity |]. split.
  - rewrite (db_calls_extend w _
               [EvRedisGet ("user:" +:+ ToString id); EvDb id;
                EvRedisSet ("user:" +:+ ToString id) (JSON_stringify user) 3600;
                EvRedisGet ("user:" +:+ ToString id)]).
    + unfold count. simpl. lia.
    + unfold w2, w1. cbn [log emit written set_redis]. rewrite <- !app_assoc. reflexivity.
  - unfold since, w2, w1. cbn [log emit written set_redis].
    rewrite <- !app_assoc. apply drop_app_length.
Qed.

Lemma X5_second_getUser_witness :
  fst (run (_ ← getUser (VNum 1); getUser (VNum 1)) (world0 0 db_null fn_fails)) =
    Fulfilled VNull /\
  db_calls (snd (run (_ ← getUser (VNum 1); getUser (VNum 1))
                   (world0 0 db_null fn_fails))) = 1%nat.
Proof.
  destruct (X5_second_getUser_is_a_hit (VNum 1) VNull (world0 0 db_null fn_fails))
    as (Hr & Hc & _).
  - intros k. reflexivity.
  - reflexivity.
  - reflexivity.
  - discriminate.
  - split; [exact Hr | exact Hc].
Defined.

(** X6.  The entry of [getUser] lives for 3600 seconds.  A call made
    less than 3600000 ms after the write-back is a hit and leaves the
    database alone; a call made 3600000 ms after it or later finds the
    key expired and calls the database again. *)
Theorem X6_getUser_entry_expires_after_an_hour `{JSON}
    (id user : value) (w : World) (dt : Z) :
  store_sound w -> truthy (redis_lookup w ("user:" +:+ ToString id)) = false ->
  db_users w (db_calls w) id = Fulfilled user ->
  JSON_stringify user <> EmptyString ->
  let later := advance dt (snd (run (getUser id) w)) in
  (dt < 3600000 ->
     fst (run (getUser id) later) = JSON_parse (JSON_stringify user) /\
     db_calls (snd (run (getUser id) later)) = S (db_calls w)) /\
  (3600000 <= dt ->
     db_calls (snd (run (getUser id) later)) = S (S (db_calls w))).
Proof.
  intros Hs Hmiss Hdb Htext. cbv zeta.
  rewrite (getUser_miss_fills id user w Hs Hmiss Hdb). cbn [snd].
  set (w1 := emit (EvDb id) (emit (EvRedisGet ("user:" +:+ ToString id)) w)).
  destruct (lookup_after_write id user 3600 w1 dt Htext) as [Hbefore Hafter].
  assert (Hcalls : db_calls (advance dt (written ("user:" +:+ ToString id) user 3600 w1)) =
                   S (db_calls w)).
  { rewrite (db_calls_extend w _
               [EvRedisGet ("user:" +:+ ToString id); EvDb id;
                EvRedisSet ("user:" +:+ ToString id) (JSON_stringify user) 3600]).
    - unfold count. simpl. lia.
    - rewrite log_advance. unfold w1. cbn [log emit written set_redis].
      rewrite <- !app_assoc. reflexivity. }
  assert (Hs' : store_sound (advance dt (written ("user:" +:+ ToString id) user 3600 w1)))
    by exact Hs.
  split; intros Hdt.
  - destruct (Hbefore ltac:(lia)) as [Hget Hhit].
    rewrite (getUser_on_hit id _ _ (Hs' _) Hget Hhit). cbn [fst snd].
    split; [reflexivity |]. rewrite db_calls_emit_get. exact Hcalls.
  - rewrite (getUser_db_calls_on_miss id _ (Hs' _) (Hafter ltac:(lia))).
    rewrite Hcalls. reflexivity.
Qed.

Lemma X6_getUser_entry_expires_witness :
  db_calls (snd (run (getUser (VNum 1))
                   (advance 3599999 (snd (run (getUser (VNum 1))
                                            (world0 0 db_null fn_fails)))))) = 1%nat /\
  db_calls (snd (run (getUser (VNum 1))
                   (advance 3600000 (snd (run (getUser (VNum 1))
                                            (world0 0 db_null fn_fails)))))) = 2%nat.
Proof.
  destruct (X6_getUser_entry_expires_after_an_hour (VNum 1) VNull
              (world0 0 db_null fn_fails) 3599999) as [H1 _];
    [intros k; reflexivity | reflexivity | reflexivity | discriminate |].
  destruct (X6_getUser_entry_expires_after_an_hour (VNum 1) VNull
              (world0 0 db_null fn_fails) 3600000) as [_ H2];
    [intros k; reflexivity | reflexivity | reflexivity | discriminate |].
  split; [apply H1; lia | apply H2; lia].
Defined.

(** X7.  The two sketches share their keys.  An entry written by
    [cacheAsideExample(id)] on a miss is served by [getUser(id)] for the
    next 600 seconds: [getUser] returns [JSON.parse] of that text and
    does not call the database. *)
Theorem X7_cacheAsideExample_entry_serves_getUser `{JSON}
    (id : value) (w : World) (dt : Z) :
  store_sound w -> truthy (redis_lookup w ("user:" +:+ ToString id)) = false ->
  JSON_stringify (VObj [("id", id); ("name", VStr "From DB")]) <> EmptyString ->
  dt < 600000 ->
  let later := advance dt (snd (run (cacheAsideExample id) w)) in
  fst (run (getUser id) later) =
    JSON_parse (JSON_stringify (VObj [("id", id); ("name", VStr "From DB")])) /\
  db_calls (snd (run (getUser id) later)) = db_calls w.
Proof.
  intros Hs Hmiss Htext Hdt. cbv zeta.
  rewrite (cacheAsideExample_miss_fills id w Hs Hmiss). cbn [snd].
  set (w1 := emit (EvRedisGet ("user:" +:+ ToString id)) w).
  destruct (lookup_after_write id _ 600 w1 dt Htext) as [Hbefore _].
  destruct (Hbefore ltac:(lia)) as [Hget Hhit].
  assert (Hs' : store_sound
                  (advance dt (written ("user:" +:+ ToString id)
                                 (VObj [("id", id); ("name", VStr "From DB")]) 600 w1)))
    by exact Hs.
  rewrite (getUser_on_hit id _ _ (Hs' _) Hget Hhit). cbn [fst snd].
  split; [reflexivity |].
  rewrite (db_calls_extend w _
             [EvRedisGet ("user:" +:+ ToString id);
              EvRedisSet ("user:" +:+ ToString id)
                (JSON_stringify (VObj [("id", id); ("name", VStr "From DB")])) 600;
              EvRedisGet ("user:" +:+ ToString id)]).
  - unfold count. simpl. lia.
  - cbn [log emit]. rewrite log_advance. unfold w1. cbn [log emit written set_redis].
    rewrite <- !app_assoc. reflexivity.
Qed.

Lemma X7_cacheAsideExample_entry_witness :
  db_calls (snd (run (getUser (VNum 1))
                   (advance 1000 (snd (run (cacheAsideExample (VNum 1))
                                         (world0 0 db_null fn_fails)))))) = 0%nat.
Proof.
  destruct (X7_cacheAsideExample_entry_serves_getUser (VNum 1)
              (world0 0 db_null fn_fails) 1000) as [_ H1];
    [intros k; reflexivity | reflexivity | discriminate | lia |].
  exact H1.
Defined.

(** ** Reconnect delay and page arithmetic *)

(** X8.  The reconnect delay grows by 50 ms per attempt and is capped:
    it never exceeds 2000 ms, never decreases from one attempt to the
    next, and is at its cap from the 40th attempt on. *)
Theorem X8_retryStrategy_capped_and_monotone (times times' : Z) :
  retryStrategy times <= 2000 /\
  (times <= times' -> retryStrategy times <= retryStrategy times') /\
  (times <= 40 -> retryStrategy times = times * 50) /\
  (40 <= times -> retryStrategy times = 2000).
Proof. unfold retryStrategy. repeat split; intros; lia. Qed.

Lemma X8_retryStrategy_witness :
  retryStrategy 1 = 50 /\ retryStrategy 40 = 2000 /\ retryStrategy 1000 = 2000 /\
  retryStrategy 1 <= retryStrategy 40.
Proof.
  destruct (X8_retryStrategy_capped_and_monotone 1 40) as (_ & Hmono & _).
  repeat split; try reflexivity. apply Hmono. lia.
Defined.

(** X9.  The page count matches the skips.  For [limit > 0] and
    [total >= 0], [pages] is the number of pages that hold a row: every
    page from 1 to [pages] starts before the end of the rows, page
    [pages + 1] starts at or after it, and there are no pages exactly
    when there are no rows. *)
Theorem X9_page_count_matches_skip (total limit : Z) :
  0 < limit -> 0 <= total ->
  exists pages,
    page_count total limit = Some pages /\
    0 <= pages /\
    (pages = 0 <-> total = 0) /\
    (forall page, 1 <= page <= pages -> 0 <= page_skip page limit < total) /\
    total <= page_skip (pages + 1) limit /\
    (pages - 1) * limit < total <= pages * limit.
Proof.
  intros Hl Ht. unfold page_count, page_skip.
  destruct (Z.eqb_spec limit 0) as [E | _]; [lia |].
  exists (- (- total / limit)).
  pose proof (Z.div_mod (- total) limit ltac:(lia)) as Hdm.
  pose proof (Z.mod_pos_bound (- total) limit Hl) as Hmod.
  set (q := - total / limit) in *.
  assert (Hq : - total = limit * q + (- total) mod limit) by exact Hdm.
  assert (Hb1 : limit * (- q) >= total) by lia.
  assert (Hb2 : limit * (- q - 1) < total) by lia.
  set (p := - q) in *.
  replace (limit * (- q - 1)) with (limit * (p - 1)) in Hb2 by (unfold p; ring).
  assert (Hq0 : 0 <= p).
  { destruct (Z.le_gt_cases 0 p) as [Hp | Hp]; [exact Hp |].
    assert (limit * p <= limit * (-1)) by (apply Z.mul_le_mono_nonneg_l; lia). lia. }
  split; [reflexivity |]. split; [exact Hq0 |]. split; [| split; [| split]].
  - split; intros E.
    + rewrite E in Hb1. lia.
    + destruct (Z.le_gt_cases 1 p) as [Hp | Hp]; [| lia].
      assert (limit * 0 <= limit * (p - 1)) by (apply Z.mul_le_mono_nonneg_l; lia). lia.
  - intros page Hp.
    assert (0 <= (page - 1) * limit) by (apply Z.mul_nonneg_nonneg; lia).
    assert ((page - 1) * limit <= (p - 1) * limit)
      by (apply Z.mul_le_mono_nonneg_r; lia).
    lia.
  - lia.
  - lia.
Qed.

Lemma X9_page_count_witness :
  0 < 10 /\ 0 <= 95 /\ page_count 95 10 = Some 10 /\
  page_skip 10 10 < 95 /\ 95 <= page_skip 11 10.
Proof.
  destruct (X9_page_count_matches_skip 95 10 ltac:(lia) ltac:(lia))
    as (pages & Hp & _ & _ & Hin & Hout & _).
  vm_compute in Hp. injection Hp as <-.
  split; [lia |]. split; [lia |]. split; [reflexivity |].
  split; [apply (Hin 10); lia | exact Hout].
Defined.

(** ** Splitting at spaces: the fullName virtual and the Authorization header *)

Lemma split_on_no_sep (sep : Ascii.ascii) (s : string) :
  has_char sep s = false -> split_on sep s = [s].
Proof.
  induction s as [| c s IH]; intros Hs; [reflexivity |].
  simpl in Hs. apply orb_false_iff in Hs as [Hc Hs].
  simpl. rewrite Hc, (IH Hs). reflexivity.
Qed.

Lemma split_on_app (sep : Ascii.ascii) (f t : string) :
  has_char sep f = false ->
  split_on sep (f +:+ String sep t) = f :: split_on sep t.
Proof.
  induction f as [| c f IH]; intros Hf.
  - simpl. rewrite Ascii.eqb_refl. reflexivity.
  - simpl in Hf. apply orb_false_iff in Hf as [Hc Hf].
    simpl. rewrite Hc, (IH Hf). reflexivity.
Qed.

Lemma split_on_pieces (sep : Ascii.ascii) (s : string) :
  Forall (fun piece => has_char sep piece = false) (split_on sep s).
Proof.
  induction s as [| c s IH]; simpl.
  - constructor; [reflexivity | constructor].
  - destruct (Ascii.eqb c sep) eqn:Ec.
    + constructor; [reflexivity | exact IH].
    + destruct (split_on sep s) as [| part parts].
      * constructor; [simpl; rewrite Ec; reflexivity | constructor].
      * inversion IH as [| ? ? Hpart Hparts]; subst.
        constructor; [simpl; rewrite Ec, Hpart; reflexivity | exact Hparts].
Qed.

(** X10.  Writing the full name back gives the same person, when neither
    name holds a space: setting [fullName] to what the getter returns
    for first name [f] and last name [l] sets exactly [f] and [l]. *)
Theorem X10_fullName_set_after_get (f l : string) (this : UserDoc) :
  has_char space f = false -> has_char space l = false ->
  fullName_get (mkUserDoc (VStr f) (VStr l)) = f +:+ " " +:+ l /\
  fullName_set (fullName_get (mkUserDoc (VStr f) (VStr l))) this =
    mkUserDoc (VStr f) (VStr l).
Proof.
  intros Hf Hl. split; [reflexivity |].
  unfold fullName_set, fullName_get. cbn [firstName lastName ToString].
  change (f +:+ " " +:+ l) with (f +:+ String space l).
  rewrite (split_on_app space f l Hf), (split_on_no_sep space l Hl). reflexivity.
Qed.

Lemma X10_fullName_set_after_get_witness :
  fullName_set (fullName_get (mkUserDoc (VStr "John") (VStr "Doe")))
    (mkUserDoc VUndefined VUndefined) = mkUserDoc (VStr "John") (VStr "Doe").
Proof.
  apply (X10_fullName_set_after_get "John" "Doe" (mkUserDoc VUndefined VUndefined));
    reflexivity.
Defined.

(** X11.  What the setter loses.  A name without a space leaves
    [lastName] undefined, and the getter then reads it back with the word
    "undefined" appended; of a name with more than two words only the
    first two are kept; and a name set by the setter never holds a
    space. *)
Theorem X11_fullName_setter_edges (this : UserDoc) :
  (forall name, has_char space name = false ->
     fullName_set name this = mkUserDoc (VStr name) VUndefined /\
     fullName_get (fullName_set name this) = name +:+ " undefined") /\
  (forall f l rest, has_char space f = false -> has_char space l = false ->
     fullName_set (f +:+ " " +:+ l +:+ " " +:+ rest) this = mkUserDoc (VStr f) (VStr l)) /\
  (forall name s,
     firstName (fullName_set name this) = VStr s \/
     lastName (fullName_set name this) = VStr s ->
     has_char space s = false).
Proof.
  split; [| split].
  - intros name Hn. unfold fullName_set. rewrite (split_on_no_sep space name Hn).
    split; reflexivity.
  - intros f l rest Hf Hl. unfold fullName_set.
    change (f +:+ " " +:+ l +:+ " " +:+ rest)
      with (f +:+ String space (l +:+ String space rest)).
    rewrite (split_on_app space f _ Hf), (split_on_app space l _ Hl). reflexivity.
  - intros name s. unfold fullName_set. cbn [firstName lastName]. unfold at_index.
    pose proof (split_on_pieces space name) as Hall.
    intros [Hs | Hs].
    + destruct (split_on space name !! 0%nat) as [p |] eqn:E; [| discriminate].
      injection Hs as <-.
      apply list_elem_of_lookup_2 in E.
      rewrite Forall_forall in Hall. apply Hall. exact E.
    + destruct (split_on space name !! 1%nat) as [p |] eqn:E; [| discriminate].
      injection Hs as <-.
      apply list_elem_of_lookup_2 in E.
      rewrite Forall_forall in Hall. apply Hall. exact E.
Qed.

Lemma X11_fullName_setter_edges_witness :
  fullName_get (fullName_set "Cher" (mkUserDoc VUndefined VUndefined)) = "Cher undefined" /\
  fullName_set "John Ronald Tolkien" (mkUserDoc VUndefined VUndefined) =
    mkUserDoc (VStr "John") (VStr "Ronald").
Proof.
  destruct (X11_fullName_setter_edges (mkUserDoc VUndefined VUndefined)) as (H1 & H2 & _).
  split.
  - apply (H1 "Cher"). reflexivity.
  - apply (H2 "John" "Ronald" "Tolkien"); reflexivity.
Defined.

(** ** Stripping query operators *)

(** X13.  [sanitize] removes the top-level keys that start with "$" and
    nothing else: no key of the result starts with "$"; every other
    property stays, in order and with its value untouched, so a "$"
    operator inside a nested object survives; and sanitizing twice
    changes nothing more. *)
Theorem X13_sanitize_top_level_only (obj : list (string * value)) :
  (forall k v, In (k, v) (sanitize obj) -> String.prefix "$" k = false) /\
  (forall k v, In (k, v) obj -> String.prefix "$" k = false -> In (k, v) (sanitize obj)) /\
  (forall k v, In (k, v) (sanitize obj) -> In (k, v) obj) /\
  sanitize (sanitize obj) = sanitize obj /\
  (Forall (fun kv => String.prefix "$" (fst kv) = false) obj -> sanitize obj = obj).
Proof.
  unfold sanitize. split; [| split; [| split; [| split]]].
  - intros k v Hin. apply List.filter_In in Hin as [_ Hk]. simpl in Hk.
    apply negb_true_iff in Hk. exact Hk.
  - intros k v Hin Hk. apply List.filter_In. split; [exact Hin |].
    simpl. rewrite Hk. reflexivity.
  - intros k v Hin. apply List.filter_In in Hin as [Hin _]. exact Hin.
  - induction obj as [| [k v] obj IH]; [reflexivity |]. simpl.
    destruct (String.prefix "$" k) eqn:Ek; simpl; [exact IH |].
    rewrite Ek. simpl. f_equal. exact IH.
  - intros Hall. induction Hall as [| [k v] obj Hk Hall IH]; [reflexivity |].
    simpl in *. rewrite Hk. simpl. f_equal. exact IH.
Qed.

Lemma X13_sanitize_witness :
  sanitize [("$where", VStr "1"); ("email", VObj [("$gt", VStr EmptyString)])] =
    [("email", VObj [("$gt", VStr EmptyString)])].
Proof.
  destruct (X13_sanitize_top_level_only
              [("email", VObj [("$gt", VStr EmptyString)])]) as (_ & _ & _ & _ & Hid).
  change (sanitize [("$where", VStr "1"); ("email", VObj [("$gt", VStr EmptyString)])])
    with (sanitize [("email", VObj [("$gt", VStr EmptyString)])]).
  apply Hid. repeat constructor.
Defined.

(** ** The product slug *)

Lemma slug_char_facts (c : Ascii.ascii) :
  is_slug_char c = true ->
  Ascii.eqb c dash = false /\ is_upper c = false /\ is_white c = false.
Proof.
  destruct c as [[] [] [] [] [] [] [] []]; vm_compute; intros E;
    first [discriminate E | repeat split].
Qed.

Lemma slug_or_dash_lower (c : Ascii.ascii) :
  slug_or_dash c = true -> lower_char c = c.
Proof.
  destruct c as [[] [] [] [] [] [] [] []]; vm_compute; intros E;
    first [discriminate E | reflexivity].
Qed.

Lemma slug_or_dash_cases (c : Ascii.ascii) :
  slug_or_dash c = true -> is_slug_char c = false -> c = dash.
Proof.
  unfold slug_or_dash. intros E Hn. rewrite Hn in E. simpl in E.
  apply Ascii.eqb_eq. exact E.
Qed.

Lemma dash_runs_chars (s : string) :
  forall b, all_chars slug_or_dash (dash_runs b s) = true.
Proof.
  induction s as [| c s IH]; intros b; [reflexivity |]. simpl.
  destruct (is_slug_char c) eqn:Ec.
  - simpl. unfold slug_or_dash at 1. rewrite Ec. simpl. apply IH.
  - destruct b; [apply IH |]. simpl. apply IH.
Qed.

Lemma dash_runs_dashes (s : string) :
  forall b,
    no_double_dash (dash_runs b s) = true /\
    starts_with dash (dash_runs true s) = false.
Proof.
  induction s as [| c s IH]; intros b; [split; reflexivity |]. simpl.
  destruct (is_slug_char c) eqn:Ec.
  - destruct (slug_char_facts c Ec) as (Hd & _).
    destruct (IH false) as [Hn _]. simpl. rewrite Hd, Hn. split; reflexivity.
  - destruct (IH true) as [Hn Hs]. split; [| exact Hs].
    destruct b; [exact Hn |]. simpl. rewrite Hs, Hn. reflexivity.
Qed.

Lemma drop_leading_dash_chars p s :
  all_chars p s = true -> all_chars p (drop_leading_dash s) = true.
Proof.
  destruct s as [| c s]; [reflexivity |]. simpl. intros E.
  apply andb_true_iff in E as [Hc Hs].
  destruct (Ascii.eqb c dash); [exact Hs |]. simpl. rewrite Hc, Hs. reflexivity.
Qed.

Lemma drop_trailing_dash_chars p s :
  all_chars p s = true -> all_chars p (drop_trailing_dash s) = true.
Proof.
  induction s as [| c s IH]; [reflexivity |]. intros E.
  simpl in E. apply andb_true_iff in E as [Hc Hs].
  destruct s as [| c' s'].
  - simpl. destruct (Ascii.eqb c dash); [reflexivity |]. simpl. rewrite Hc. reflexivity.
  - change (drop_trailing_dash (String c (String c' s')))
      with (String c (drop_trailing_dash (String c' s'))).
    simpl all_chars. rewrite Hc. simpl. apply IH. exact Hs.
Qed.

Lemma drop_trailing_dash_start (c : Ascii.ascii) (s : string) :
  starts_with c (drop_trailing_dash s) = true -> starts_with c s = true.
Proof.
  destruct s as [| c1 [| c2 s]]; simpl; [discriminate | |].
  - destruct (Ascii.eqb c1 dash); simpl; [discriminate | tauto].
  - tauto.
Qed.

Lemma drop_leading_dash_ndd s :
  no_double_dash s = true ->
  no_double_dash (drop_leading_dash s) = true /\
  starts_with dash (drop_leading_dash s) = false.
Proof.
  destruct s as [| c s]; [split; reflexivity |]. simpl. intros E.
  apply andb_true_iff in E as [Hc Hs].
  destruct (Ascii.eqb c dash) eqn:Ec.
  - simpl in Hc. apply negb_true_iff in Hc. split; [exact Hs | exact Hc].
  - simpl. rewrite Ec, Hs. split; reflexivity.
Qed.

Lemma no_double_dash_cons (c : Ascii.ascii) (s : string) :
  no_double_dash (String c s) =
  negb (Ascii.eqb c dash && starts_with dash s) && no_double_dash s.
Proof. reflexivity. Qed.

Lemma drop_trailing_dash_ndd s :
  no_double_dash s = true ->
  no_double_dash (drop_trailing_dash s) = true /\
  ends_with dash (drop_trailing_dash s) = false.
Proof.
  induction s as [| c s IH]; [split; reflexivity |]. intros E.
  rewrite no_double_dash_cons in E. apply andb_true_iff in E as [Hc Hs].
  destruct s as [| c' s'].
  - simpl. destruct (Ascii.eqb c dash) eqn:Ec; [split; reflexivity |].
    simpl. rewrite Ec. split; reflexivity.
  - change (drop_trailing_dash (String c (String c' s')))
      with (String c (drop_trailing_dash (String c' s'))).
    destruct (IH Hs) as [Hn He].
    remember (drop_trailing_dash (String c' s')) as t eqn:Et.
    split.
    + rewrite no_double_dash_cons, Hn, andb_true_r.
      destruct (Ascii.eqb c dash) eqn:Ec; [| reflexivity]. cbn [andb].
      destruct (starts_with dash t) eqn:Est; [| reflexivity].
      rewrite Et in Est. apply drop_trailing_dash_start in Est.
      rewrite Est in Hc. discriminate Hc.
    + destruct t as [| c1 t1]; [| exact He].
      cbn [ends_with]. destruct (Ascii.eqb c dash) eqn:Ec; [| reflexivity].
      (* the tail was a lone dash, so [c] is not one *)
      assert (Hd : starts_with dash (String c' s') = true).
      { destruct s' as [| c2 s2].
        - simpl in Et. destruct (Ascii.eqb c' dash) eqn:E'; [simpl; exact E' | discriminate Et].
        - simpl in Et. discriminate Et. }
      rewrite Hd in Hc. discriminate Hc.
Qed.

(** What [trim_dashes] makes of a string of slug characters and single
    dashes. *)
Lemma trim_dashes_shape (t : string) :
  all_chars slug_or_dash t = true -> no_double_dash t = true ->
  all_chars slug_or_dash (trim_dashes t) = true /\
  starts_with dash (trim_dashes t) = false /\
  ends_with dash (trim_dashes t) = false /\
  no_double_dash (trim_dashes t) = true.
Proof.
  intros Hc Hn. unfold trim_dashes.
  destruct (drop_leading_dash_ndd t Hn) as [Hn1 Hs1].
  destruct (drop_trailing_dash_ndd _ Hn1) as [Hn2 He2].
  split; [| split; [| split]].
  - apply drop_trailing_dash_chars, drop_leading_dash_chars. exact Hc.
  - destruct (starts_with dash (drop_trailing_dash (drop_leading_dash t))) eqn:E;
      [| reflexivity].
    apply drop_trailing_dash_start in E. congruence.
  - exact He2.
  - exact Hn2.
Qed.

(** X14.  The shape of a slug.  Whatever the name, its slug holds only
    the characters a-z, 0-9 and the dash, neither starts nor ends with a
    dash, and has no two dashes side by side. *)
Theorem X14_slug_shape (name : string) :
  all_chars slug_or_dash (slugify name) = true /\
  starts_with dash (slugify name) = false /\
  ends_with dash (slugify name) = false /\
  no_double_dash (slugify name) = true.
Proof.
  unfold slugify. apply trim_dashes_shape.
  - apply dash_runs_chars.
  - apply (dash_runs_dashes (toLowerCase name) false).
Qed.

Lemma toLowerCase_fixed (s : string) :
  all_chars slug_or_dash s = true -> toLowerCase s = s.
Proof.
  induction s as [| c s IH]; [reflexivity |]. simpl. intros E.
  apply andb_true_iff in E as [Hc Hs].
  rewrite (slug_or_dash_lower c Hc), (IH Hs). reflexivity.
Qed.

Lemma dash_runs_fixed (s : string) :
  forall b,
    all_chars slug_or_dash s = true -> no_double_dash s = true ->
    (b = true -> starts_with dash s = false) ->
    dash_runs b s = s.
Proof.
  induction s as [| c s IH]; intros b Hc Hn Hb; [reflexivity |].
  simpl in Hc, Hn. apply andb_true_iff in Hc as [Hc Hcs].
  apply andb_true_iff in Hn as [Hd Hns]. simpl.
  destruct (is_slug_char c) eqn:Ec.
  - rewrite (IH false Hcs Hns); [reflexivity | discriminate].
  - pose proof (slug_or_dash_cases c Hc Ec) as ->.
    destruct b.
    + specialize (Hb eq_refl). simpl in Hb. discriminate Hb.
    + rewrite (IH true Hcs Hns); [reflexivity |].
      intros _. simpl in Hd. apply negb_true_iff in Hd. exact Hd.
Qed.

Lemma drop_leading_dash_fixed s :
  starts_with dash s = false -> drop_leading_dash s = s.
Proof. destruct s as [| c s]; [reflexivity |]. simpl. intros ->. reflexivity. Qed.

Lemma drop_trailing_dash_fixed s :
  ends_with dash s = false -> drop_trailing_dash s = s.
Proof.
  induction s as [| c s IH]; [reflexivity |]. intros E.
  destruct s as [| c' s'].
  - simpl in *. rewrite E. reflexivity.
  - change (drop_trailing_dash (String c (String c' s')))
      with (String c (drop_trailing_dash (String c' s'))).
    rewrite IH; [reflexivity | exact E].
Qed.

(** X15.  A slug is its own slug: making the slug of a slug changes
    nothing, so a name that already is a slug is kept as it is. *)
Theorem X15_slugify_idempotent (name : string) :
  slugify (slugify name) = slugify name.
Proof.
  assert (Hshape : all_chars slug_or_dash (slugify name) = true /\
                   starts_with dash (slugify name) = false /\
                   ends_with dash (slugify name) = false /\
                   no_double_dash (slugify name) = true).
  { unfold slugify. apply trim_dashes_shape;
      [apply dash_runs_chars | apply (dash_runs_dashes (toLowerCase name) false)]. }
  destruct Hshape as (Hc & Hs & He & Hn).
  unfold slugify at 1.
  rewrite (toLowerCase_fixed _ Hc).
  rewrite (dash_runs_fixed _ false Hc Hn) by discriminate.
  unfold trim_dashes.
  rewrite (drop_leading_dash_fixed _ Hs), (drop_trailing_dash_fixed _ He). reflexivity.
Qed.

Lemma keep_dash_runs (s : string) :
  forall b, keep is_slug_char (dash_runs b s) = keep is_slug_char s.
Proof.
  induction s as [| c s IH]; intros b; [reflexivity |]. simpl.
  destruct (is_slug_char c) eqn:Ec.
  - simpl. rewrite Ec, IH. reflexivity.
  - destruct b; [apply IH |]. simpl. apply IH.
Qed.

Lemma keep_drop_leading_dash (s : string) :
  keep is_slug_char (drop_leading_dash s) = keep is_slug_char s.
Proof.
  destruct s as [| c s]; [reflexivity |]. simpl.
  destruct (Ascii.eqb c dash) eqn:Ec; [| reflexivity].
  apply Ascii.eqb_eq in Ec. subst c. reflexivity.
Qed.

Lemma keep_drop_trailing_dash (s : string) :
  keep is_slug_char (drop_trailing_dash s) = keep is_slug_char s.
Proof.
  induction s as [| c s IH]; [reflexivity |].
  destruct s as [| c' s'].
  - simpl. destruct (Ascii.eqb c dash) eqn:Ec; [| reflexivity].
    apply Ascii.eqb_eq in Ec. subst c. reflexivity.
  - change (drop_trailing_dash (String c (String c' s')))
      with (String c (drop_trailing_dash (String c' s'))).
    cbn [keep]. rewrite IH. reflexivity.
Qed.

Lemma only_dashes_empty (s : string) :
  all_chars slug_or_dash s = true -> keep is_slug_char s = EmptyString ->
  starts_with dash s = false -> s = EmptyString.
Proof.
  destruct s as [| c s]; [reflexivity |]. simpl. intros Hc Hk Hs.
  apply andb_true_iff in Hc as [Hc _].
  destruct (is_slug_char c) eqn:Ec; [discriminate Hk |].
  rewrite (slug_or_dash_cases c Hc Ec) in Hs. discriminate Hs.
Qed.

(** X16.  What a slug keeps.  The letters and digits of the slug are
    exactly the letters and digits of the lower-cased name, in the same
    order; only other characters are dropped or turned into dashes.  So
    the slug is empty exactly when the name has no letter and no digit. *)
Theorem X16_slug_keeps_letters_and_digits (name : string) :
  keep is_slug_char (slugify name) = keep is_slug_char (toLowerCase name) /\
  (slugify name = EmptyString <-> keep is_slug_char (toLowerCase name) = EmptyString).
Proof.
  assert (Hkeep : keep is_slug_char (slugify name) = keep is_slug_char (toLowerCase name)).
  { unfold slugify, trim_dashes.
    rewrite keep_drop_trailing_dash, keep_drop_leading_dash. apply keep_dash_runs. }
  split; [exact Hkeep |]. split.
  - intros E. rewrite <- Hkeep, E. reflexivity.
  - intros E. rewrite <- Hkeep in E.
    assert (Hshape : all_chars slug_or_dash (slugify name) = true /\
                     starts_with dash (slugify name) = false).
    { unfold slugify.
      destruct (trim_dashes_shape (dash_runs false (toLowerCase name)))
        as (Hc & Hs & _);
        [apply dash_runs_chars | apply (dash_runs_dashes (toLowerCase name) false) |].
      split; assumption. }
    destruct Hshape as [Hc Hs]. apply only_dashes_empty; assumption.
Qed.

(** ** The e-mail address handed to the query *)























(** ** Scripts *)

(** Case analysis on the replies a run consults, in the order in which
    it consults them. *)
Ltac by_replies f :=
  repeat (cbn;
          match goal with
          | |- context [match f ?n with Fulfilled _ => _ | Rejected _ => _ end] =>
              let E := fresh "E" in destruct (f n) eqn:E
          end);
  cbn.

(** Use the replies already settled wherever the goal still names them. *)
Ltac use_replies f :=
  repeat match goal with
         | E : f ?n = _ |- context [f ?n] => rewrite E
         end;
  cbn.

(** X18.  The PostgreSQL transfer always gives its client back.  If the
    pool gives no client, the error comes out and nothing else is done.
    Otherwise [client.release()] is called exactly once and is the last
    call, COMMIT is sent exactly when BEGIN and both updates went well,
    ROLLBACK is sent exactly when one of the four statements failed, and
    the function fulfils exactly when ROLLBACK (if sent) and the release
    went well: a failed transfer is not reported to the caller. *)
Theorem X18_pg_transfer_releases_client (answers : nat -> outcome value) :
  let r := run_script advancedFeatures (fresh answers) in
  (forall e, answers 0%nat = Rejected e ->
     fst r = Rejected e /\ callees (snd r) = ["pool.connect"]) /\
  (ok (answers 0%nat) = true ->
     last (callees (snd r)) = Some "client.release" /\
     times "client.release" (snd r) = 1%nat /\
     sent "COMMIT" (snd r) =
       ok (answers 1%nat) && ok (answers 2%nat) && ok (answers 3%nat) /\
     sent "ROLLBACK" (snd r) =
       negb (ok (answers 1%nat) && ok (answers 2%nat) &&
             ok (answers 3%nat) && ok (answers 4%nat)) /\
     ok (fst r) = all_ok_for is_cleanup (snd r)).
Proof.
  cbv zeta. split.
  - intros e He. unfold advancedFeatures. cbn. rewrite He. cbn. split; reflexivity.
  - unfold advancedFeatures, times, sent, all_ok_for, callees.
    by_replies answers; intros; use_replies answers; repeat split; congruence.
Qed.

Lemma X18_pg_transfer_witness :
  fst (run_script advancedFeatures
         (fresh (fun n => if (n =? 2)%nat then Rejected (Error "deadlock")
                          else Fulfilled VNull))) = Fulfilled tt /\
  sent "ROLLBACK" (snd (run_script advancedFeatures
         (fresh (fun n => if (n =? 2)%nat then Rejected (Error "deadlock")
                          else Fulfilled VNull)))) = true.
Proof.
  destruct (X18_pg_transfer_releases_client
              (fun n => if (n =? 2)%nat then Rejected (Error "deadlock") else Fulfilled VNull))
    as [_ H].
  destruct (H eq_refl) as (_ & _ & _ & Hrb & _).
  split; [reflexivity | exact Hrb].
Defined.

(** Case analysis for the MongoDB transfer: the replies, then the
    balance that was read and its comparison with 0. *)
Ltac by_transfer f :=
  repeat (cbn -[get_property less_than_zero];
          match goal with
          | |- context [match f ?n with Fulfilled _ => _ | Rejected _ => _ end] =>
              let E := fresh "E" in destruct (f n) eqn:E
          | |- context [match get_property ?v ?p with Fulfilled _ => _ | Rejected _ => _ end] =>
              let E := fresh "Eb" in destruct (get_property v p) eqn:E
          | |- context [if less_than_zero ?g ?b then _ else _] =>
              let E := fresh "El" in destruct (less_than_zero g b) eqn:E
          | |- context [match ?e with Error _ => _ end] => is_var e; destruct e
          end);
  cbn -[get_property less_than_zero].

(** X19.  The MongoDB transfer always ends its session.  If no session
    can be started the error comes out and nothing else is done.
    Otherwise [session.endSession()] is called exactly once and is the
    last call; the function is rejected exactly when the transaction was
    aborted, and when it fulfils the commit was made and nothing was
    aborted. *)
Theorem X19_transaction_ends_session
    (senderId receiverId : value) (amount : Z) (str_lt_zero : string -> bool)
    (answers : nat -> outcome value) :
  let r := run_script (transactionExample senderId receiverId amount str_lt_zero)
             (fresh answers) in
  (forall e, answers 0%nat = Rejected e ->
     fst r = Rejected e /\ callees (snd r) = ["mongoose.startSession"]) /\
  (ok (answers 0%nat) = true ->
     last (callees (snd r)) = Some "session.endSession" /\
     times "session.endSession" (snd r) = 1%nat /\
     times "session.abortTransaction" (snd r) = (if ok (fst r) then 0 else 1)%nat /\
     (ok (fst r) = true -> times "session.commitTransaction" (snd r) = 1%nat) /\
     (times "session.commitTransaction" (snd r) <= 1)%nat).
Proof.
  cbv zeta. split.
  - intros e He. unfold transactionExample. cbn. rewrite He. cbn. split; reflexivity.
  - unfold transactionExample, times, callees.
    by_transfer answers; intros; repeat split; first [congruence | lia].
Qed.

Lemma X19_transaction_ends_session_witness :
  last (callees (snd (run_script (transactionExample (VNum 1) (VNum 2) 10 (fun _ => false))
                        (fresh (fun _ => Fulfilled VNull))))) = Some "session.endSession".
Proof.
  destruct (X19_transaction_ends_session (VNum 1) (VNum 2) 10 (fun _ => false)
              (fun _ => Fulfilled VNull)) as [_ H].
  destruct (H eq_refl) as (Hlast & _). exact Hlast.
Defined.

(** X20.  A sender short of money, or missing.  When the sender's balance
    after the debit is a number below 0, the receiver is never credited
    and nothing is committed: the only update made is the debit, and the
    transaction is aborted.  If the abort goes well the error is
    "Insufficient balance" and the calls are the debit, the abort, the
    log line and the end of the session.  When no sender is found (null),
    the same happens with the TypeError of reading [balance] of null. *)
Theorem X20_transaction_insufficient_balance
    (senderId receiverId : value) (amount : Z) (str_lt_zero : string -> bool)
    (answers : nat -> outcome value) (session sender : value) :
  answers 0%nat = Fulfilled session -> ok (answers 1%nat) = true ->
  answers 2%nat = Fulfilled sender ->
  let r := run_script (transactionExample senderId receiverId amount str_lt_zero)
             (fresh answers) in
  let aborted (message : string) :=
    times "User.findByIdAndUpdate" (snd r) = 1%nat /\
    times "session.commitTransaction" (snd r) = 0%nat /\
    times "session.abortTransaction" (snd r) = 1%nat /\
    (ok (answers 3%nat) = true ->
       fst r = Rejected (Error message) /\
       callees (snd r) =
         ["mongoose.startSession"; "session.startTransaction"; "User.findByIdAndUpdate";
          "session.abortTransaction"; "console.error"; "session.endSession"]) in
  ((exists n, get_property sender "balance" = Fulfilled (VNum n) /\ n < 0) ->
     aborted "Insufficient balance") /\
  (sender = VNull -> aborted "Cannot read properties of null (reading 'balance')").
Proof.
  intros E0 E1 E2. cbv zeta. unfold transactionExample, callees, times.
  cbn -[get_property less_than_zero].
  rewrite E0. cbn -[get_property less_than_zero].
  destruct (answers 1%nat) eqn:E1'; [| discriminate E1].
  cbn -[get_property less_than_zero]. rewrite E2. cbn -[get_property less_than_zero].
  split.
  - intros (n & Hb & Hn). rewrite Hb. cbn -[get_property].
    replace (n <? 0) with true by (symmetry; apply Z.ltb_lt; exact Hn).
    cbn. destruct (answers 3%nat) eqn:E3; cbn;
      (do 3 (split; [reflexivity |]); intros Hok;
       first [discriminate Hok | split; reflexivity]).
  - intros ->. cbn.
    destruct (answers 3%nat) eqn:E3; cbn;
      (do 3 (split; [reflexivity |]); intros Hok;
       first [discriminate Hok | split; reflexivity]).
Qed.

Lemma X20_transaction_insufficient_balance_witness :
  fst (run_script (transactionExample (VNum 1) (VNum 2) 10 (fun _ => false))
         (fresh (fun _ => Fulfilled (VObj [("balance", VNum (-5))])))) =
    Rejected (Error "Insufficient balance").
Proof.
  destruct (X20_transaction_insufficient_balance (VNum 1) (VNum 2) 10 (fun _ => false)
              (fun _ => Fulfilled (VObj [("balance", VNum (-5))]))
              (VObj [("balance", VNum (-5))]) (VObj [("balance", VNum (-5))])
              eq_refl eq_refl eq_refl) as [H _].
  destruct H as (_ & _ & _ & H); [exists (-5); split; [reflexivity | lia] |].
  apply H. reflexivity.
Defined.

(** X21.  Errors propagate out of the first [getUser], and its caller
    takes them all.  [getUser(id)] makes one call to [db.findUser]; a
    failure of that call comes out unchanged; a falsy result (null,
    undefined, 0, the empty string, false) is turned into the error
    "User not found"; anything else is returned.  The caller never
    rejects: it writes one line to the console exactly when [getUser]
    failed. *)
Theorem X21_getUser_errors_propagate (id : value) (answers : nat -> outcome value) :
  let r := run_script (getUser_or_throw id) (fresh answers) in
  let c := run_script getUser_caller (fresh answers) in
  asked (snd r) = [("db.findUser", [Val id])] /\
  (forall e, answers 0%nat = Rejected e -> fst r = Rejected e) /\
  (forall user, answers 0%nat = Fulfilled user ->
     fst r = if truthy_value user then Fulfilled user
             else Rejected (Error "User not found")) /\
  fst c = Fulfilled tt /\
  times "console.error" (snd c) =
    (if ok (fst (run_script (getUser_or_throw (VNum 123)) (fresh answers)))
     then 0 else 1)%nat.
Proof.
  cbv zeta. unfold getUser_caller, getUser_or_throw, times, callees. cbn.
  destruct (answers 0%nat) as [user | [message]] eqn:E0; cbn.
  - destruct (truthy_value user) eqn:Et; cbn.
    + repeat split; try congruence.
      intros u [= <-]. rewrite Et. reflexivity.
    + repeat split; try congruence.
      intros u [= <-]. rewrite Et. reflexivity.
  - repeat split; congruence.
Qed.

Lemma X21_getUser_errors_propagate_witness :
  fst (run_script (getUser_or_throw (VNum 123)) (fresh (fun _ => Fulfilled (VNum 0)))) =
    Rejected (Error "User not found") /\
  fst (run_script (getUser_or_throw (VNum 123))
         (fresh (fun _ => Rejected (Error "connection lost")))) =
    Rejected (Error "connection lost").
Proof.
  destruct (X21_getUser_errors_propagate (VNum 123) (fun _ => Fulfilled (VNum 0)))
    as (_ & _ & H1 & _).
  destruct (X21_getUser_errors_propagate (VNum 123)
              (fun _ => Rejected (Error "connection lost"))) as (_ & H2 & _).
  split; [apply (H1 (VNum 0)); reflexivity | apply H2; reflexivity].
Defined.

(** X22.  DELETE /api/users/:id answers once or hands the error on.  If
    the database call fails, the only further call is [next(error)] with
    that error, and the response is not touched.  If no user was found,
    the answer is status 404 with "User not found"; if one was found,
    the success message is sent with no status set.  The handler itself
    rejects only if [next] throws. *)
Theorem X22_delete_user_answers_once (id : value) (answers : nat -> outcome value) :
  let r := run_script (delete_user id) (fresh answers) in
  (forall e, answers 0%nat = Rejected e ->
     asked (snd r) = [("User.findByIdAndDelete", [Val id]); ("next", [Err e])] /\
     fst r = match answers 1%nat with
             | Fulfilled _ => Fulfilled tt
             | Rejected e' => Rejected e'
             end) /\
  (forall user, answers 0%nat = Fulfilled user -> truthy_value user = false ->
     ok (answers 1%nat) = true -> ok (answers 2%nat) = true ->
     fst r = Fulfilled tt /\
     asked (snd r) =
       [("User.findByIdAndDelete", [Val id]);
        ("res.status", [Val (VNum 404)]);
        ("res.json", [Val (VObj [("success", VBool false);
                                 ("error", VStr "User not found")])])]) /\
  (forall user, answers 0%nat = Fulfilled user -> truthy_value user = true ->
     ok (answers 1%nat) = true ->
     fst r = Fulfilled tt /\
     asked (snd r) =
       [("User.findByIdAndDelete", [Val id]);
        ("res.json", [Val (VObj [("success", VBool true);
                                 ("message", VStr "User deleted successfully")])])]) /\
  (times "next" (snd r) <= 1)%nat /\
  (fst r = Fulfilled tt \/ times "next" (snd r) = 1%nat).
Proof.
  cbv zeta. unfold delete_user, times, callees. cbn.
  destruct (answers 0%nat) as [user | e0] eqn:E0; cbn.
  - destruct (truthy_value user) eqn:Et; cbn.
    + destruct (answers 1%nat) eqn:E1; cbn.
      * repeat split; try congruence; try lia; try discriminate. left. reflexivity.
      * destruct (answers 2%nat) eqn:E2; cbn;
          repeat split; try congruence; try lia; try discriminate; auto.
    + destruct (answers 1%nat) eqn:E1; cbn.
      * destruct (answers 2%nat) eqn:E2; cbn.
        -- repeat split; try congruence; try lia; try discriminate. left. reflexivity.
        -- destruct (answers 3%nat) eqn:E3; cbn;
             repeat split; try congruence; try lia; try discriminate; auto.
      * destruct (answers 2%nat) eqn:E2; cbn;
          repeat split; try congruence; try lia; try discriminate; auto.
  - destruct (answers 1%nat) eqn:E1; cbn;
      repeat split; try congruence; try lia; try discriminate; auto.
Qed.

Lemma X22_delete_user_answers_once_witness :
  asked (snd (run_script (delete_user (VStr "42")) (fresh (fun _ => Fulfilled VNull)))) =
    [("User.findByIdAndDelete", [Val (VStr "42")]);
     ("res.status", [Val (VNum 404)]);
     ("res.json", [Val (VObj [("success", VBool false); ("error", VStr "User not found")])])].
Proof.
  destruct (X22_delete_user_answers_once (VStr "42") (fun _ => Fulfilled VNull))
    as (_ & H & _).
  destruct (H VNull eq_refl eq_refl eq_refl eq_refl) as [_ Hcalls]. exact Hcalls.
Defined.

(** X23.  The CRUD walk-through gives its client back and reports the
    first failure.  Once a client is obtained, [client.release()] is
    called exactly once and is the last call.  The six statements are
    sent in order until one fails; the ones after it are not sent, and
    (the release going well) the function is rejected with the error of
    the one that failed.  With all six going well it fulfils, unless the
    release throws. *)
Theorem X23_crud_releases_and_reports (answers : nat -> outcome value) :
  let r := run_script crudOperations (fresh answers) in
  (forall e, answers 0%nat = Rejected e ->
     fst r = Rejected e /\ callees (snd r) = ["pool.connect"]) /\
  (ok (answers 0%nat) = true ->
     last (callees (snd r)) = Some "client.release" /\
     times "client.release" (snd r) = 1%nat /\
     match first_bad answers 1 6 with
     | Some k =>
         times "client.query" (snd r) = k /\
         (forall e, answers k = Rejected e -> ok (answers (S k)) = true ->
            fst r = Rejected e)
     | None =>
         times "client.query" (snd r) = 6%nat /\
         ok (fst r) = ok (answers 7%nat)
     end).
Proof.
  cbv zeta. split.
  - intros e He. unfold crudOperations. cbn. rewrite He. cbn. split; reflexivity.
  - unfold crudOperations, times, callees, first_bad.
    by_replies answers; intros; use_replies answers;
      repeat split; try congruence;
      intros e' He' Hok'; use_replies answers; try discriminate; congruence.
Qed.

Lemma X23_crud_releases_and_reports_witness :
  fst (run_script crudOperations
         (fresh (fun n => if (n =? 3)%nat then Rejected (Error "relation does not exist")
                          else Fulfilled VNull))) =
    Rejected (Error "relation does not exist") /\
  times "client.query"
    (snd (run_script crudOperations
            (fresh (fun n => if (n =? 3)%nat then Rejected (Error "relation does not exist")
                             else Fulfilled VNull)))) = 3%nat.
Proof.
  destruct (X23_crud_releases_and_reports
              (fun n => if (n =? 3)%nat then Rejected (Error "relation does not exist")
                        else Fulfilled VNull)) as [_ H].
  destruct (H eq_refl) as (_ & _ & Hq & Herr).
  split; [apply (Herr (Error "relation does not exist")); reflexivity | exact Hq].
Defined.

(** ** The JWT middleware *)

(** X12.  What the JWT middleware takes for the token, and when it
    answers 401.  The token is the second space-separated piece of the
    Authorization header, whatever the first piece is and whatever
    follows: any scheme word does as well as "Bearer".  A missing header,
    or one without a space, hands undefined to [jwt.verify].
    [jwt.verify] is called once, with the token and the secret.  If it
    throws, 401 "Unauthorized" is answered, [next] is not called and
    [req.user] is not written.  If it returns, [req.user] is set to what
    it returned and [next()] is called; if [next()] returns, no answer is
    sent; if [next()] throws, 401 "Unauthorized" is answered after all,
    with [req.user] already set.  So 401 is answered exactly when
    [jwt.verify] or [next] throws. *)
Theorem X12_authMiddleware_token (SECRET : value) (answers : nat -> outcome value)
    (scheme tok rest : string) :
  has_char space scheme = false -> has_char space tok = false ->
  bearer_token (Some (scheme +:+ " " +:+ tok)) = Some tok /\
  bearer_token (Some (scheme +:+ " " +:+ tok +:+ " " +:+ rest)) = Some tok /\
  authMiddleware SECRET (Some (scheme +:+ " " +:+ tok)) =
    authMiddleware SECRET (Some ("Bearer " +:+ tok)) /\
  bearer_token (Some scheme) = None /\
  authMiddleware SECRET (Some scheme) = authMiddleware SECRET None /\
  (forall h,
     let r := run_script (authMiddleware SECRET h) (fresh answers) in
     let verify := ("jwt.verify", [Val (from_option VStr VUndefined (bearer_token h));
                                   Val SECRET]) in
     let unauthorized := [("res.status", [Val (VNum 401)]);
                          ("res.json", [Val (VObj [("error", VStr "Unauthorized")])])] in
     (forall e, answers 0%nat = Rejected e ->
        ok (answers 1%nat) = true -> ok (answers 2%nat) = true ->
        fst r = Fulfilled tt /\ asked (snd r) = verify :: unauthorized) /\
     (forall user, answers 0%nat = Fulfilled user -> ok (answers 2%nat) = true ->
        fst r = Fulfilled tt /\
        asked (snd r) = [verify; ("req.user", [Val user]); ("next", [])]) /\
     (forall user, answers 0%nat = Fulfilled user -> ok (answers 2%nat) = false ->
        ok (answers 3%nat) = true -> ok (answers 4%nat) = true ->
        fst r = Fulfilled tt /\
        asked (snd r) = [verify; ("req.user", [Val user]); ("next", [])] ++ unauthorized) /\
     times "jwt.verify" (snd r) = 1%nat /\
     times "req.user" (snd r) = (if ok (answers 0%nat) then 1 else 0)%nat /\
     times "next" (snd r) = (if ok (answers 0%nat) then 1 else 0)%nat /\
     times "res.status" (snd r) =
       (if ok (answers 0%nat) && ok (answers 2%nat) then 0 else 1)%nat).
Proof.
  intros Hs Ht.
  assert (H1 : bearer_token (Some (scheme +:+ " " +:+ tok)) = Some tok).
  { unfold bearer_token. change (scheme +:+ " " +:+ tok) with (scheme +:+ String space tok).
    rewrite (split_on_app space scheme tok Hs), (split_on_no_sep space tok Ht). reflexivity. }
  assert (H2 : bearer_token (Some ("Bearer " +:+ tok)) = Some tok).
  { unfold bearer_token. change ("Bearer " +:+ tok) with ("Bearer" +:+ String space tok).
    rewrite (split_on_app space "Bearer" tok eq_refl), (split_on_no_sep space tok Ht).
    reflexivity. }
  assert (H3 : bearer_token (Some scheme) = None).
  { unfold bearer_token. rewrite (split_on_no_sep space scheme Hs). reflexivity. }
  split; [exact H1 |]. split; [| split; [| split; [exact H3 | split]]].
  - unfold bearer_token.
    change (scheme +:+ " " +:+ tok +:+ " " +:+ rest)
      with (scheme +:+ String space (tok +:+ String space rest)).
    rewrite (split_on_app space scheme _ Hs), (split_on_app space tok _ Ht). reflexivity.
  - unfold authMiddleware. rewrite H1, H2. reflexivity.
  - unfold authMiddleware. rewrite H3. reflexivity.
  - intros h. cbv zeta. unfold authMiddleware, assign, times, callees.
    generalize (from_option VStr VUndefined (bearer_token h)). intros token.
    by_replies answers; repeat split; intros; use_replies answers;
      first [discriminate | congruence | split; congruence].
Qed.

Lemma X12_authMiddleware_token_witness :
  bearer_token (Some "Bearer abc.def.ghi") = Some "abc.def.ghi" /\
  bearer_token (Some "Basic abc.def.ghi") = Some "abc.def.ghi" /\
  asked (snd (run_script (authMiddleware (VStr "s3cret") (Some "Basic abc.def.ghi"))
                (fresh (fun n => if (n =? 2)%nat then Rejected (Error "route failed")
                                 else Fulfilled (VObj [("userId", VNum 7)]))))) =
    [("jwt.verify", [Val (VStr "abc.def.ghi"); Val (VStr "s3cret")]);
     ("req.user", [Val (VObj [("userId", VNum 7)])]);
     ("next", []);
     ("res.status", [Val (VNum 401)]);
     ("res.json", [Val (VObj [("error", VStr "Unauthorized")])])].
Proof.
  destruct (X12_authMiddleware_token (VStr "s3cret")
              (fun n => if (n =? 2)%nat then Rejected (Error "route failed")
                        else Fulfilled (VObj [("userId", VNum 7)]))
              "Bearer" "abc.def.ghi" EmptyString eq_refl eq_refl) as (H1 & _).
  destruct (X12_authMiddleware_token (VStr "s3cret")
              (fun n => if (n =? 2)%nat then Rejected (Error "route failed")
                        else Fulfilled (VObj [("userId", VNum 7)]))
              "Basic" "abc.def.ghi" EmptyString eq_refl eq_refl) as (H2 & _ & _ & _ & _ & H).
  destruct (H (Some "Basic abc.def.ghi")) as (_ & _ & Hnext & _).
  destruct (Hnext (VObj [("userId", VNum 7)]) eq_refl eq_refl eq_refl eq_refl) as [_ Hcalls].
  split; [exact H1 |]. split; [exact H2 | exact Hcalls].
Defined.
